(** * Quota ledger and admission control of [dev_server.py]

    A shallow embedding of the quota-gated part of the development server:
    the SQLite counter ledger, [_consume_limit], [_pick_model], the limit
    configuration ([_default_model_limits], [_parse_model_limits]) and the
    admission phase of [do_POST].

    Python [int] is [Z]; [str] is [string]; a [dict] with string keys that
    is built and read in order is an association list, a [dict] used only
    for lookup is a [gmap]; the two SQLite tables are [gmap]s keyed by their
    primary keys. *)

From Stdlib Require Import ZArith List String Ascii Lia.
From Stdlib Require Import Floats.SpecFloat.
From stdpp Require Import base option list gmap strings pretty.

Local Open Scope string_scope.
Local Open Scope list_scope.
Local Open Scope Z_scope.

(** ** Time *)

(** The fields of an aware [datetime] in UTC, as [datetime.now(timezone.utc)]
    returns it. *)
Record datetime := {
  dt_year : Z;
  dt_month : Z;
  dt_day : Z;
  dt_hour : Z;
  dt_minute : Z;
  dt_second : Z;
  dt_microsecond : Z
}.

(** The ranges the [datetime] constructor enforces on the time of day. *)
Definition valid_time_of_day (n : datetime) : Prop :=
  0 <= dt_hour n < 24 /\ 0 <= dt_minute n < 60 /\
  0 <= dt_second n < 60 /\ 0 <= dt_microsecond n < 1000000.

(** [str(z)] for a Python [int]. *)
Definition str (z : Z) : string := pretty z.

(** [%04d] and [%02d]: zero padding on the left up to [width] characters. *)
Fixpoint zeros (n : nat) : string :=
  match n with
  | O => ""
  | S k => "0" +:+ zeros k
  end.

Definition zero_pad (width : nat) (z : Z) : string :=
  let digits := str z in
  zeros (width - String.length digits) +:+ digits.

(** [now.strftime("%Y-%m-%d")] *)
Definition strftime_Ymd (n : datetime) : string :=
  zero_pad 4 (dt_year n) +:+ "-" +:+ zero_pad 2 (dt_month n) +:+ "-" +:+
  zero_pad 2 (dt_day n).

(** [int((next_midnight - now).total_seconds())], where [next_midnight] is
    [now] with its time of day cleared, plus one day. The difference is a
    [timedelta] of whole microseconds; [int] truncates toward zero. *)
Definition microseconds_since_midnight (n : datetime) : Z :=
  (dt_hour n * 3600 + dt_minute n * 60 + dt_second n) * 1000000
  + dt_microsecond n.

Definition seconds_until_next_midnight (n : datetime) : Z :=
  (86400 * 1000000 - microseconds_since_midnight n) `quot` 1000000.

(** One evaluation of [_consume_limit] reads the system clock three times:
    [datetime.now] (line 129), [time.time()] for the minute bucket (line 131)
    and, on the per-minute denial only, [time.time()] again (line 157).
    [time.time()] is a float number of seconds; it is kept here as a whole
    number of microseconds since the epoch, of which the code only uses
    [floor (t / 60)] and [floor (t mod 60)]. *)
Record reading := {
  now : datetime;
  time_at_bucket : Z;
  time_at_retry : Z
}.

(** [int(time.time() // 60)] *)
Definition minute_of (t_us : Z) : Z := t_us `div` 60000000.

(** [int(time.time() % 60)] *)
Definition second_in_minute (t_us : Z) : Z := (t_us `mod` 60000000) `div` 1000000.

(** ** The counter ledger (the SQLite file) *)

(** [usage_day(day TEXT, scope TEXT, count INTEGER, PRIMARY KEY(day, scope))]
    and [usage_minute(minute INTEGER, scope TEXT, count INTEGER,
    PRIMARY KEY(minute, scope))]. *)
Record ledger := {
  usage_day : gmap (string * string) Z;
  usage_minute : gmap (Z * string) Z
}.

Definition empty_ledger : ledger := {| usage_day := ∅; usage_minute := ∅ |}.

(** A connection sees the stored database plus the changes of its own open
    transaction. The [sqlite3] module opens a transaction before the first
    DELETE or INSERT; [commit] stores the pending changes, [close] without
    a commit drops them. *)
Record connection := {
  stored : ledger;
  pending : ledger
}.

(** [_get_db]: the two CREATE TABLE IF NOT EXISTS leave existing rows alone. *)
Definition _get_db (db : ledger) : connection :=
  {| stored := db; pending := db |}.

(** [DELETE FROM usage_minute WHERE minute < ?] *)
Definition delete_minutes_before (bound : Z) (conn : connection) : connection :=
  {| stored := stored conn;
     pending :=
       {| usage_day := usage_day (pending conn);
          usage_minute :=
            filter (λ row : (Z * string) * Z, ¬ (row.1.1 < bound))
                   (usage_minute (pending conn)) |} |}.

(** [SELECT count FROM usage_day WHERE day = ? AND scope = ?] followed by
    [fetchone()]: the row, if there is one. *)
Definition select_day (day scope : string) (conn : connection) : option Z :=
  usage_day (pending conn) !! (day, scope).

Definition select_minute (minute : Z) (scope : string) (conn : connection) : option Z :=
  usage_minute (pending conn) !! (minute, scope).

(** [INSERT ... VALUES(?,?,1) ON CONFLICT(...) DO UPDATE SET count = count + 1] *)
Definition upsert {K} `{Countable K} (k : K) (m : gmap K Z) : gmap K Z :=
  match m !! k with
  | Some c => <[k := c + 1]> m
  | None => <[k := 1]> m
  end.

Definition upsert_day (day scope : string) (conn : connection) : connection :=
  {| stored := stored conn;
     pending :=
       {| usage_day := upsert (day, scope) (usage_day (pending conn));
          usage_minute := usage_minute (pending conn) |} |}.

Definition upsert_minute (minute : Z) (scope : string) (conn : connection) : connection :=
  {| stored := stored conn;
     pending :=
       {| usage_day := usage_day (pending conn);
          usage_minute := upsert (minute, scope) (usage_minute (pending conn)) |} |}.

Definition commit (conn : connection) : connection :=
  {| stored := pending conn; pending := pending conn |}.

(** [conn.close()] in the [finally] clause: what is left in the file. *)
Definition close (conn : connection) : ledger := stored conn.

(** [int(row[0]) if row else 0] *)
Definition count_of (row : option Z) : Z :=
  match row with
  | Some c => c
  | None => 0
  end.

(** ** Diagnostics *)

(** The headers dict, in insertion order. *)
Definition headers := list (string * string).

(** [d[k] = v]: replaces the value of an existing key in place, appends a
    new key at the end. *)
Fixpoint dict_set {V} (k : string) (v : V) (d : list (string * V)) : list (string * V) :=
  match d with
  | [] => [(k, v)]
  | (k', v') :: rest =>
      if String.eqb k' k then (k', v) :: rest else (k', v') :: dict_set k v rest
  end.

(** [d.get(k)], with [None] for a missing key. *)
Fixpoint dict_get {V} (k : string) (d : list (string * V)) : option V :=
  match d with
  | [] => None
  | (k', v') :: rest => if String.eqb k' k then Some v' else dict_get k rest
  end.

(** [{**a, **b}] *)
Definition dict_merge {V} (a b : list (string * V)) : list (string * V) :=
  fold_left (fun d kv => dict_set (fst kv) (snd kv) d) b a.

(** ** [_consume_limit] *)

(** The returned tuple [(allowed, retry_after, headers)]. *)
Record decision := {
  allowed : bool;
  retry_after : Z;
  diagnostics : headers
}.

Definition _consume_limit (r : reading) (db : ledger)
    (scope : string) (rpd_limit rpm_limit : Z) : decision * ledger :=
  let day := strftime_Ymd (now r) in
  let minute := minute_of (time_at_bucket r) in
  let conn := _get_db db in
  (* Cleanup old minute buckets (keep last 10 minutes) *)
  let conn := delete_minutes_before (minute - 10) conn in
  let day_count := count_of (select_day day scope conn) in
  let minute_count := count_of (select_minute minute scope conn) in
  let allowed := true in
  let retry_after := 0 in
  let '(allowed, retry_after) :=
    if (0 <? rpd_limit) && (rpd_limit <=? day_count)
    then (false, Z.max 60 (seconds_until_next_midnight (now r)))
    else (allowed, retry_after) in
  let '(allowed, retry_after) :=
    if allowed && (0 <? rpm_limit) && (rpm_limit <=? minute_count)
    then (false, Z.max 1 (60 - second_in_minute (time_at_retry r)))
    else (allowed, retry_after) in
  let hdrs :=
    [ ("X-RateLimit-Scope", scope);
      ("X-RateLimit-RPD-Limit", str rpd_limit);
      ("X-RateLimit-RPD-Used", str day_count);
      ("X-RateLimit-RPM-Limit", str rpm_limit);
      ("X-RateLimit-RPM-Used", str minute_count) ] in
  if negb allowed then
    ({| allowed := false; retry_after := retry_after; diagnostics := hdrs |},
     close conn)
  else
    (* Consume one unit *)
    let conn := upsert_day day scope conn in
    let conn := upsert_minute minute scope conn in
    let conn := commit conn in
    (* Update after increment *)
    let hdrs := dict_set "X-RateLimit-RPD-Used" (str (day_count + 1)) hdrs in
    let hdrs := dict_set "X-RateLimit-RPM-Used" (str (minute_count + 1)) hdrs in
    ({| allowed := true; retry_after := 0; diagnostics := hdrs |}, close conn).

(** The counters an evaluation at reading [r] looks at. *)
Definition day_counter (db : ledger) (r : reading) (scope : string) : Z :=
  count_of (usage_day db !! (strftime_Ymd (now r), scope)).

Definition minute_counter (db : ledger) (r : reading) (scope : string) : Z :=
  count_of (usage_minute db !! (minute_of (time_at_bucket r), scope)).

(** ** What one evaluation does *)

(** The two tests of lines 150 and 155. *)
Definition daily_exhausted (rpd_limit day_count : Z) : bool :=
  (0 <? rpd_limit) && (rpd_limit <=? day_count).

Definition minute_exhausted (rpm_limit minute_count : Z) : bool :=
  (0 <? rpm_limit) && (rpm_limit <=? minute_count).

(** The headers before the update of line 182. *)
Definition headers_with (scope : string) (rpd_limit rpm_limit used_day used_minute : Z)
    : headers :=
  [ ("X-RateLimit-Scope", scope);
    ("X-RateLimit-RPD-Limit", str rpd_limit);
    ("X-RateLimit-RPD-Used", str used_day);
    ("X-RateLimit-RPM-Limit", str rpm_limit);
    ("X-RateLimit-RPM-Used", str used_minute) ].

(** The ledger after the committed transaction of an admitted call: stale
    minute rows of every scope are gone, one unit is added in both tables. *)
Definition charged (r : reading) (db : ledger) (scope : string) : ledger :=
  close (commit (upsert_minute (minute_of (time_at_bucket r)) scope
          (upsert_day (strftime_Ymd (now r)) scope
            (delete_minutes_before (minute_of (time_at_bucket r) - 10)
              (_get_db db))))).


(** A run of evaluations of one scope under one limit pair, one after the
    other, each with its own clock reading. *)
Fixpoint attempts (rs : list reading) (db : ledger) (scope : string)
    (rpd_limit rpm_limit : Z) : list decision * ledger :=
  match rs with
  | [] => ([], db)
  | r :: rest =>
      let '(d, db1) := _consume_limit r db scope rpd_limit rpm_limit in
      let '(ds, db2) := attempts rest db1 scope rpd_limit rpm_limit in
      (d :: ds, db2)
  end.

(** The number of admitted evaluations among some decisions. *)
Definition admissions (ds : list decision) : Z :=
  Z.of_nat (length (List.filter allowed ds)).

(** The decision of an evaluation, from the two counters it reads. *)
Definition decision_at (r : reading) (scope : string)
    (rpd_limit rpm_limit day_count minute_count : Z) : decision :=
  if daily_exhausted rpd_limit day_count then
    {| allowed := false;
       retry_after := Z.max 60 (seconds_until_next_midnight (now r));
       diagnostics := headers_with scope rpd_limit rpm_limit day_count minute_count |}
  else if minute_exhausted rpm_limit minute_count then
    {| allowed := false;
       retry_after := Z.max 1 (60 - second_in_minute (time_at_retry r));
       diagnostics := headers_with scope rpd_limit rpm_limit day_count minute_count |}
  else
    {| allowed := true;
       retry_after := 0;
       diagnostics :=
         headers_with scope rpd_limit rpm_limit (day_count + 1) (minute_count + 1) |}.

(** The decisions of a run whose evaluations all fall in one day and one
    minute bucket, from the two counters at its start. *)
Fixpoint replay (rs : list reading) (scope : string)
    (rpd_limit rpm_limit day_count minute_count : Z) : list decision :=
  match rs with
  | [] => []
  | r :: rest =>
      let d := decision_at r scope rpd_limit rpm_limit day_count minute_count in
      d :: (if allowed d
            then replay rest scope rpd_limit rpm_limit (day_count + 1) (minute_count + 1)
            else replay rest scope rpd_limit rpm_limit day_count minute_count)
  end.

(** ** Python values and what the program takes from outside *)

(** The values [json.loads] builds. A [dict] is kept as its items in
    insertion order; its keys are strings and, in a well-formed value,
    pairwise different. *)
#[local] Set Warnings "-register-all".
Inductive pyvalue :=
| PyNone
| PyBool (b : bool)
| PyInt (z : Z)
| PyFloat (f : spec_float)
| PyStr (s : string)
| PyList (l : list pyvalue)
| PyDict (d : list (string * pyvalue)).
#[local] Set Warnings "register-all".

(** [bool(v)] *)
Definition truthy (v : pyvalue) : bool :=
  match v with
  | PyNone => false
  | PyBool b => b
  | PyInt z => negb (z =? 0)
  | PyFloat (S754_zero _) => false
  | PyFloat _ => true
  | PyStr s => negb (String.eqb s "")
  | PyList l => match l with [] => false | _ => true end
  | PyDict d => match d with [] => false | _ => true end
  end.

(** [int(f)] for a float: truncation toward zero; [None] stands for the
    OverflowError of an infinity and the ValueError of a NaN. *)
Definition int_of_float (f : spec_float) : option Z :=
  match f with
  | S754_zero _ => Some 0
  | S754_infinity _ => None
  | S754_nan => None
  | S754_finite negative m e =>
      let magnitude :=
        if 0 <=? e then Z.pos m * 2 ^ e else Z.pos m `div` 2 ^ (- e) in
      Some (if negative then - magnitude else magnitude)
  end.

(** The system clock and the built-ins of Python whose result depends on
    Unicode tables ([str.strip], [int] of a [str]) or on the JSON grammar.
    [clock n] is what the [n]-th evaluation of [_consume_limit] reads. For
    [json_loads] and [int_of_str],
    [None] stands for any exception they raise ([JSONDecodeError],
    [RecursionError], [ValueError]: all of them subclasses of [Exception]). *)
Class Runtime := {
  clock : nat -> reading;
  json_loads : string -> option pyvalue;
  str_strip : string -> string;
  int_of_str : string -> option Z
}.

(** [int(v)]; [None] stands for the TypeError, ValueError or OverflowError. *)
Definition py_int `{Runtime} (v : pyvalue) : option Z :=
  match v with
  | PyNone => None
  | PyBool b => Some (if b then 1 else 0)
  | PyInt z => Some z
  | PyFloat f => int_of_float f
  | PyStr s => int_of_str s
  | PyList _ => None
  | PyDict _ => None
  end.

(** [s.split(",")] *)
Fixpoint split_go (sep : ascii) (cur s : string) : list string :=
  match s with
  | EmptyString => [cur]
  | String c rest =>
      if Ascii.eqb c sep then cur :: split_go sep "" rest
      else split_go sep (cur +:+ String c "") rest
  end.

Definition split (sep : ascii) (s : string) : list string := split_go sep "" s.

(** [os.environ] *)
Definition environ := gmap string string.

(** [os.environ.get(k, default)] *)
Definition environ_get (env : environ) (k default : string) : string :=
  match env !! k with
  | Some v => v
  | None => default
  end.

(** ** Limit configuration *)

Definition _default_model_limits (model : string) : Z * Z :=
  if String.eqb model "gemini-2.5-flash" then (20, 5)
  else if String.eqb model "gemini-2.5-flash-lite" then (20, 10)
  else if String.eqb model "gemini-3-flash" then (20, 5)
  else if String.prefix "gemma-3-" model then (14400, 30)
  else (20, 5).

(** [v.get(k)] on a dict: [None] of Python for a missing key. *)
Definition get_or_none (k : string) (d : list (string * pyvalue)) : pyvalue :=
  match dict_get k d with
  | Some v => v
  | None => PyNone
  end.

(** The body of the loop of lines 53 to 63 for one item. A key of a dict
    built by [json.loads] is always a [str]. *)
Definition add_limit `{Runtime} (limits : gmap string (Z * Z))
    (item : string * pyvalue) : gmap string (Z * Z) :=
  let '(k, v) := item in
  match v with
  | PyDict fields =>
      let rpd := get_or_none "rpd" fields in
      let rpm := get_or_none "rpm" fields in
      match py_int rpd with
      | Some rpd_i =>
          match py_int rpm with
          | Some rpm_i => <[k := (Z.max 0 rpd_i, Z.max 0 rpm_i)]> limits
          | None => limits
          end
      | None => limits
      end
  | _ => limits
  end.

(** What an item's value contributes: the clamped pair when it is a dict
    whose [rpd] and [rpm] both convert, nothing otherwise. *)
Definition limit_entry `{Runtime} (v : pyvalue) : option (Z * Z) :=
  match v with
  | PyDict fields =>
      match py_int (get_or_none "rpd" fields), py_int (get_or_none "rpm" fields) with
      | Some rpd_i, Some rpm_i => Some (Z.max 0 rpd_i, Z.max 0 rpm_i)
      | _, _ => None
      end
  | _ => None
  end.

Definition _parse_model_limits `{Runtime} (env : environ) : gmap string (Z * Z) :=
  let raw := str_strip (environ_get env "GEMINI_MODEL_LIMITS_JSON" "") in
  if String.eqb raw "" then ∅
  else
    match json_loads raw with
    | None => ∅
    | Some data =>
        let limits := ∅ in
        match data with
        | PyDict items => fold_left add_limit items limits
        | _ => limits
        end
    end.

(** [model_limits.get(model, _default_model_limits(model))] *)
Definition limits_for (model_limits : gmap string (Z * Z)) (model : string) : Z * Z :=
  match model_limits !! model with
  | Some limits => limits
  | None => _default_model_limits model
  end.

Definition _split_csv `{Runtime} (value : string) : list string :=
  map str_strip
    (List.filter
       (fun v => negb (String.eqb v "") && negb (String.eqb (str_strip v) ""))
       (split "," value)).

(** ** The server state *)

(** The ledger file, and the scopes [_consume_limit] was called with so far,
    oldest first. The list is not program state: it records the calls, and
    its length selects the clock reading of the next call. *)
Record world := {
  db : ledger;
  evaluated : list string
}.

(** A call [self._consume_limit(scope, rpd_limit, rpm_limit)]. *)
Definition call_consume_limit `{Runtime} (w : world) (scope : string)
    (rpd_limit rpm_limit : Z) : decision * world :=
  let '(d, db') :=
    _consume_limit (clock (length (evaluated w))) (db w) scope rpd_limit rpm_limit in
  (d, {| db := db'; evaluated := evaluated w ++ [scope] |}).

(** [f"gemini:{model}"] *)
Definition model_scope (model : string) : string := "gemini:" +:+ model.

(** ** [_pick_model] *)

(** The [for] loop of lines 198 to 207 with its two accumulators, and the
    [return] after it. [max_retry_after or 60] is 60 when the maximum is 0. *)
Fixpoint pick_loop `{Runtime} (model_limits : gmap string (Z * Z))
    (allowed_models : gset string) (preferred : list string)
    (last_headers : option headers) (max_retry_after : Z) (w : world)
    : (option string * option headers * Z) * world :=
  match preferred with
  | [] =>
      ((None, last_headers, if max_retry_after =? 0 then 60 else max_retry_after), w)
  | model :: rest =>
      if bool_decide (model ∈ allowed_models) then
        let '(rpd, rpm) := limits_for model_limits model in
        let '(d, w1) := call_consume_limit w (model_scope model) rpd rpm in
        let last_headers := Some (diagnostics d) in
        let max_retry_after := Z.max max_retry_after (retry_after d) in
        if allowed d then ((Some model, Some (diagnostics d), 0), w1)
        else pick_loop model_limits allowed_models rest last_headers max_retry_after w1
      else pick_loop model_limits allowed_models rest last_headers max_retry_after w
  end.

Definition _pick_model `{Runtime} (env : environ) (preferred : list string)
    (allowed_models : gset string) (w : world)
    : (option string * option headers * Z) * world :=
  let model_limits := _parse_model_limits env in
  pick_loop model_limits allowed_models preferred None 0 w.

(** The preferred models that are in the allow-list, in their given order. *)
Definition candidates (preferred : list string) (allowed_models : gset string)
    : list string :=
  List.filter (fun model => bool_decide (model ∈ allowed_models)) preferred.

(** What an evaluation of [model] at the [n]-th clock reading gives against
    the ledger [database]. *)
Definition verdict `{Runtime} (model_limits : gmap string (Z * Z))
    (database : ledger) (n : nat) (model : string) : decision * ledger :=
  _consume_limit (clock n) database (model_scope model)
    (fst (limits_for model_limits model)) (snd (limits_for model_limits model)).

(** The decisions the candidates get, one clock reading each from the
    [n]-th on, all against the same ledger. *)
Fixpoint verdicts `{Runtime} (model_limits : gmap string (Z * Z))
    (database : ledger) (n : nat) (cands : list string) : list decision :=
  match cands with
  | [] => []
  | model :: rest =>
      fst (verdict model_limits database n model)
        :: verdicts model_limits database (S n) rest
  end.

(** The running maximum of line 204 over some retry-after values. *)
Definition running_max (start : Z) (retries : list Z) : Z :=
  fold_left Z.max retries start.

(** ** The admission phase of [do_POST] *)

(** [body_text] is [raw.decode("utf-8") or "{}"], where [raw] is the request
    body of [Content-Length] bytes, or [b"{}"] when that header is missing,
    malformed or not positive; [None] when the bytes are not UTF-8. *)
Record request := {
  path : string;
  body_text : option string
}.

(** Where [do_POST] gets to, as far as quota is concerned: a JSON error
    response, a 429 response with its Retry-After and rate-limit headers,
    an exception that leaves the handler, or line 303 (resp. 321) with the
    model the request is forwarded to. *)
Inductive outcome :=
| JsonResponse (status : Z) (message : string)
| TooManyRequests (retry_after : Z) (hdrs : headers) (message : string)
| Uncaught
| Forward (model : string) (total_headers rl_headers : headers).

(** [body.get(k)]; [None] is the AttributeError of a body that is no dict. *)
Definition body_get (body : pyvalue) (k : string) : option pyvalue :=
  match body with
  | PyDict d => Some (get_or_none k d)
  | _ => None
  end.

(** [(v or "").strip()]; [None] is the AttributeError of a truthy value
    that is no [str]. *)
Definition or_empty_strip `{Runtime} (v : pyvalue) : option string :=
  if truthy v then
    match v with
    | PyStr s => Some (str_strip s)
    | _ => None
    end
  else Some (str_strip "").

Definition default_rotation : string :=
  "gemini-2.5-flash,gemini-2.5-flash-lite,gemini-3-flash".

(** Lines 291 to 301 and 309 to 319: rotation over the preferred models. *)
Definition rotate `{Runtime} (env : environ) (variable : string)
    (allowed_models : gset string) (total_headers : headers) (w : world)
    : outcome * world :=
  let preferred := _split_csv (environ_get env variable default_rotation) in
  let '((model, rl_headers, retry_after), w1) :=
    _pick_model env preferred allowed_models w in
  match model with
  | Some (String c m) =>
      (Forward (String c m) total_headers (default [] rl_headers), w1)
  | _ =>
      (TooManyRequests retry_after (dict_merge total_headers (default [] rl_headers))
         "Rate limit exceeded for all allowed models.", w1)
  end.

(** Lines 270 to 319, after the site-total check. *)
Definition choose_model `{Runtime} (env : environ) (req : request) (body : pyvalue)
    (allowed_models : gset string) (total_headers : headers) (w : world)
    : outcome * world :=
  if String.eqb (path req) "/api/gemini" then
    match body_get body "model" ≫= or_empty_strip with
    | None => (Uncaught, w)
    | Some requested =>
        if negb (String.eqb requested "")
           && negb (bool_decide (requested ∈ allowed_models))
        then (JsonResponse 400 ("Model not allowed: " +:+ requested), w)
        else if negb (String.eqb requested "") then
          let model := requested in
          let '(rpd, rpm) := limits_for (_parse_model_limits env) model in
          let '(d, w1) := call_consume_limit w (model_scope model) rpd rpm in
          if negb (allowed d) then
            (TooManyRequests (retry_after d) (dict_merge total_headers (diagnostics d))
               "Rate limit exceeded for requested model.", w1)
          else (Forward model total_headers (diagnostics d), w1)
        else rotate env "GEMINI_MARKCRAFT_MODELS" allowed_models total_headers w
    end
  else rotate env "GEMINI_FLASHCRAFT_MODELS" allowed_models total_headers w.

Definition do_POST `{Runtime} (env : environ) (req : request) (w : world)
    : outcome * world :=
  if negb (String.eqb (path req) "/api/gemini"
           || String.eqb (path req) "/api/flashcraft/generate_deck")
  then (JsonResponse 404 "Not found", w)
  else
    let api_key := str_strip (environ_get env "GEMINI_API_KEY" "") in
    if String.eqb api_key "" then
      (JsonResponse 500
         "Missing GEMINI_API_KEY env var. Start server with GEMINI_API_KEY=... python3 dev_server.py",
       w)
    else
      match body_text req ≫= json_loads with
      | None => (JsonResponse 400 "Invalid JSON body", w)
      | Some body =>
          let allowed_models : gset string :=
            list_to_set (_split_csv (environ_get env "GEMINI_ALLOWED_MODELS" "gemini-2.5-flash")) in
          let allowed_models :=
            if bool_decide (allowed_models = ∅) then {["gemini-2.5-flash"]}
            else allowed_models in
          (* Optional global "site total" cap across ALL models *)
          match int_of_str (environ_get env "SITE_TOTAL_RPD_LIMIT" "0") with
          | None => (Uncaught, w)
          | Some total_rpd_limit =>
              match int_of_str (environ_get env "SITE_TOTAL_RPM_LIMIT" "0") with
              | None => (Uncaught, w)
              | Some total_rpm_limit =>
                  let total_headers : headers := [] in
                  if (0 <? total_rpd_limit) || (0 <? total_rpm_limit) then
                    let '(d, w1) :=
                      call_consume_limit w "site_total" total_rpd_limit total_rpm_limit in
                    let total_headers := diagnostics d in
                    if negb (allowed d) then
                      (TooManyRequests (retry_after d) total_headers
                         "Site quota exceeded. Try again later.", w1)
                    else choose_model env req body allowed_models total_headers w1
                  else choose_model env req body allowed_models total_headers w
              end
          end
      end.

(** ** Sample data *)

Definition sample_reading : reading :=
  {| now := {| dt_year := 2026; dt_month := 3; dt_day := 7; dt_hour := 13;
               dt_minute := 5; dt_second := 42; dt_microsecond := 250000 |};
     time_at_bucket := 1772888742250100;
     time_at_retry := 1772888742250300 |}.

(** [k] whole seconds after [sample_reading]; in the same minute for
    [0 <= k < 18]. *)
Definition sample_later (k : Z) : reading :=
  {| now := {| dt_year := 2026; dt_month := 3; dt_day := 7; dt_hour := 13;
               dt_minute := 5; dt_second := 42 + k; dt_microsecond := 250000 |};
     time_at_bucket := 1772888742250100 + k * 1000000;
     time_at_retry := 1772888742250300 + k * 1000000 |}.

(** A reading on the same day at [h:mi:s] and a quarter of a second. *)
Definition reading_at (h mi s : Z) : reading :=
  {| now := {| dt_year := 2026; dt_month := 3; dt_day := 7; dt_hour := h;
               dt_minute := mi; dt_second := s; dt_microsecond := 250000 |};
     time_at_bucket := (1772841600 + h * 3600 + mi * 60 + s) * 1000000 + 250100;
     time_at_retry := (1772841600 + h * 3600 + mi * 60 + s) * 1000000 + 250300 |}.

(** A runtime for the examples: three evaluations at 13:05:30, 13:05:55
    and 13:06:15, no stripping, and only the texts the examples use. *)
Definition sample_clock (n : nat) : reading :=
  nth n [reading_at 13 5 30; reading_at 13 5 55; reading_at 13 6 15]
    (reading_at 13 6 20).

Definition sample_json_loads (s : string) : option pyvalue :=
  if String.eqb s "{}" then Some (PyDict [])
  else if String.eqb s "[1]" then Some (PyList [PyInt 1])
  else if String.eqb s "{limits}" then
    Some (PyDict
            [ ("a", PyDict [("rpd", PyInt 7); ("rpm", PyStr "5")]);
              ("b", PyDict [("rpd", PyNone); ("rpm", PyInt 1)]);
              ("c", PyInt 3);
              ("d", PyDict [("rpd", PyInt (-4)); ("rpm", PyFloat (S754_finite false 5 (-1)))]) ])
  else None.

Definition sample_int_of_str (s : string) : option Z :=
  if String.eqb s "0" then Some 0
  else if String.eqb s "5" then Some 5
  else None.

Definition sample_runtime : Runtime :=
  {| clock := sample_clock;
     json_loads := sample_json_loads;
     str_strip := fun s => s;
     int_of_str := sample_int_of_str |}.

(** A site limit of 5 a day, a ledger in which the site has used its 5,
    and a deck request. *)
Definition sample_environ : environ :=
  list_to_map [("GEMINI_API_KEY", "k"); ("SITE_TOTAL_RPD_LIMIT", "5")].

Definition sample_request : request :=
  {| path := "/api/flashcraft/generate_deck"; body_text := Some "{}" |}.

Definition site_used_up : world :=
  {| db := {| usage_day := {[ ("2026-03-07", "site_total") := 5 ]};
              usage_minute := ∅ |};
     evaluated := [] |}.

(** Three models with the default limits (20, 5); [busy] has the first two
    at their minute limit at 13:05 and [busier] also the third at 13:06. *)
Definition three_models : list string :=
  ["gemini-2.5-flash"; "gemini-3-flash"; "gemini-x"].

Definition busy : world :=
  {| db := {| usage_day := ∅;
              usage_minute :=
                list_to_map
                  [ ((29548145, "gemini:gemini-2.5-flash"), 5);
                    ((29548145, "gemini:gemini-3-flash"), 5) ] |};
     evaluated := [] |}.

Definition busier : world :=
  {| db := {| usage_day := ∅;
              usage_minute :=
                list_to_map
                  [ ((29548145, "gemini:gemini-2.5-flash"), 5);
                    ((29548145, "gemini:gemini-3-flash"), 5);
                    ((29548146, "gemini:gemini-x"), 5) ] |};
     evaluated := [] |}.

(** Six evaluations within the minute of [sample_reading]. *)
Definition six_readings : list reading :=
  map sample_later [0; 1; 2; 3; 4; 5].

Definition overrides_environ : environ :=
  {[ "GEMINI_MODEL_LIMITS_JSON" := "{limits}" ]}.


(** ** Further definitions *)

(** Every stored count is at least 1: a row exists only once a unit was
    consumed under its key. *)
Definition ledger_positive (db : ledger) : Prop :=
  (forall k c, usage_day db !! k = Some c -> 1 <= c) /\
  (forall k c, usage_minute db !! k = Some c -> 1 <= c).

(** The allow-list [do_POST] works with (lines 250 to 252). *)
Definition allow_list `{Runtime} (env : environ) : gset string :=
  let allowed_models : gset string :=
    list_to_set (_split_csv (environ_get env "GEMINI_ALLOWED_MODELS" "gemini-2.5-flash")) in
  if bool_decide (allowed_models = ∅) then {["gemini-2.5-flash"]}
  else allowed_models.

(** The world [w'] is what an admitted evaluation of the scope of [model],
    under the limits configured for it, has just left, and [rl_headers] are
    the headers of that decision. *)
Definition just_charged `{Runtime} (env : environ) (model : string)
    (rl_headers : headers) (w' : world) : Prop :=
  exists w0 d,
    call_consume_limit w0 (model_scope model)
      (fst (limits_for (_parse_model_limits env) model))
      (snd (limits_for (_parse_model_limits env) model)) = (d, w') /\
    allowed d = true /\
    rl_headers = diagnostics d.


(** ** Text scanning *)

(** [s.find(c)] for a one-character [c]; [None] is the [-1] of Python. *)
Fixpoint find_char (c : ascii) (s : string) : option nat :=
  match s with
  | EmptyString => None
  | String a rest => if Ascii.eqb a c then Some O else S <$> find_char c rest
  end.

(** [s.endswith(c)] for a one-character [c]. *)
Fixpoint endswith_char (c : ascii) (s : string) : bool :=
  match s with
  | EmptyString => false
  | String a EmptyString => Ascii.eqb a c
  | String _ rest => endswith_char c rest
  end.

(** [s[n:]] *)
Fixpoint drop_chars (n : nat) (s : string) : string :=
  match n, s with
  | O, _ => s
  | S k, EmptyString => EmptyString
  | S k, String _ rest => drop_chars k rest
  end.

(** The loop of lines 97 to 108 from index [i] on, [rest] being [text[i:]]:
    the chunk [text[start : i + 1]] at the first closing brace that takes
    the depth to 0, if there is one. *)
Fixpoint scan_braces (text : string) (start i : nat) (rest : string) (depth : Z)
    : option string :=
  match rest with
  | EmptyString => None
  | String c rest' =>
      if Ascii.eqb c "{" then scan_braces text start (S i) rest' (depth + 1)
      else if Ascii.eqb c "}" then
        let depth := depth - 1 in
        if depth =? 0 then Some (substring start (S i - start) text)
        else scan_braces text start (S i) rest' depth
      else scan_braces text start (S i) rest' depth
  end.

(** [_extract_json_object]; the [None] it returns is [PyNone]. *)
Definition _extract_json_object `{Runtime} (text : string) : pyvalue :=
  let text := str_strip text in
  if String.eqb text "" then PyNone
  else
    (* Fast path *)
    let fast :=
      if String.prefix "{" text && endswith_char "}" text then json_loads text
      else None in
    match fast with
    | Some v => v
    | None =>
        (* Try to find the first {...} block *)
        match find_char "{" text with
        | None => PyNone
        | Some start =>
            match scan_braces text start start (drop_chars start text) 0 with
            | Some chunk =>
                match json_loads chunk with
                | Some v => v
                | None => PyNone
                end
            | None => PyNone
            end
        end
    end.

(** Opening braces minus closing braces. *)
Fixpoint brace_depth (s : string) : Z :=
  match s with
  | EmptyString => 0
  | String c rest =>
      (if Ascii.eqb c "{" then 1 else if Ascii.eqb c "}" then -1 else 0)
      + brace_depth rest
  end.

(** [block] closes, for the first time, the [depth] braces open before it:
    the depth is back to 0 at its end and above 0 before every later
    character of it. *)
Definition closes_first (depth : Z) (block : string) : Prop :=
  depth + brace_depth block = 0 /\
  forall p q, block = p +:+ q -> q <> "" -> 0 < depth + brace_depth p.

(** ** The deck endpoint *)

(** Two more built-ins that depend on Unicode or on Python's printing:
    [str(v)] for a value that is no [str], and [len(s)], the number of
    code points of a [str]. *)
Class Builtins := {
  repr_value : pyvalue -> string;
  str_len : string -> Z
}.

(** [str(v)] *)
Definition py_str `{Builtins} (v : pyvalue) : string :=
  match v with
  | PyStr s => s
  | _ => repr_value v
  end.

(** [v or default] *)
Definition py_or (v default : pyvalue) : pyvalue :=
  if truthy v then v else default.

(** [(v[0] or {}).get(k)]. Only a non-empty list gets that far: an empty
    list has no first item (IndexError), a dict built by [json.loads] has
    no key 0 (KeyError), a number, a bool and [None] cannot be indexed
    (TypeError), and the first character of a [str] is a non-empty [str],
    which has no [get] (AttributeError). *)
Definition first_get (v : pyvalue) (k : string) : option pyvalue :=
  match v with
  | PyList (first :: _) => body_get (py_or first (PyDict [])) k
  | _ => None
  end.

(** [_extract_text_from_gemini]: the [try] block as a chain in which any
    exception ends in the [except] clause. *)
Definition _extract_text_from_gemini `{Builtins} (payload : pyvalue) : string :=
  let attempt :=
    raw ← body_get payload "candidates";
    let candidates := py_or raw (PyList []) in
    raw ← first_get candidates "content";
    let content := py_or raw (PyDict []) in
    raw ← body_get content "parts";
    let parts := py_or raw (PyList []) in
    raw ← first_get parts "text";
    let text := py_or raw (PyStr "") in
    Some (py_str text) in
  match attempt with
  | Some s => s
  | None => ""
  end.

(** Lines 321 to 330: what the deck request asks for, or the response that
    ends it, or an exception ([body] is no dict, a field is a truthy value
    that is no [str], [totalCards] does not convert). *)
Inductive deck_request :=
| DeckRefused (status : Z) (message : string)
| DeckUncaught
| DeckPrompt (total : Z) (requirements source_text : string).

Definition prepare_deck `{Runtime} `{Builtins} (body : pyvalue) : deck_request :=
  match body_get body "requirements" ≫= or_empty_strip with
  | None => DeckUncaught
  | Some requirements =>
      match body_get body "sourceText" ≫= or_empty_strip with
      | None => DeckUncaught
      | Some source_text =>
          match body_get body "totalCards" ≫= (fun v => py_int (py_or v (PyInt 60))) with
          | None => DeckUncaught
          | Some total =>
              if String.eqb source_text "" then
                DeckRefused 400 "sourceText is required"
              else if 200000 <? str_len source_text then
                DeckRefused 413 "sourceText too large"
              else
                let total := Z.max 10 (Z.min total 200) in
                DeckPrompt total requirements source_text
          end
      end
  end.








Definition sample_builtins : Builtins :=
  {| repr_value := fun _ => "?";
     str_len := fun s => Z.of_nat (String.length s) |}.




(** A deck request that asks for 500 cards. *)
Definition deck_body : pyvalue :=
  PyDict [("sourceText", PyStr "ser, ir"); ("totalCards", PyInt 500)].

(** * Properties *)
Example consume_fresh :
  fst (_consume_limit sample_reading empty_ledger "gemini:x" 20 5)
  = {| allowed := true; retry_after := 0;
       diagnostics :=
         [ ("X-RateLimit-Scope", "gemini:x");
           ("X-RateLimit-RPD-Limit", "20");
           ("X-RateLimit-RPD-Used", "1");
           ("X-RateLimit-RPM-Limit", "5");
           ("X-RateLimit-RPM-Used", "1") ] |}.
Proof. vm_compute. reflexivity. Qed.

Example strftime_sample : strftime_Ymd (now sample_reading) = "2026-03-07".
Proof. vm_compute. reflexivity. Qed.

Lemma lookup_pruned (bound m : Z) (s : string) (t : gmap (Z * string) Z) :
  bound <= m ->
  filter (λ row : (Z * string) * Z, ¬ (row.1.1 < bound)) t !! (m, s) = t !! (m, s).
Proof.
  intros Hb. rewrite map_lookup_filter.
  destruct (t !! (m, s)) as [c|] eqn:E; simpl; [|done].
  rewrite option_guard_True; [done | simpl; lia].
Qed.

Lemma lookup_upsert_same {K} `{Countable K} (k : K) (m : gmap K Z) :
  count_of (upsert k m !! k) = count_of (m !! k) + 1.
Proof.
  unfold upsert. destruct (m !! k) as [c|] eqn:E;
    rewrite lookup_insert_eq; simpl; lia.
Qed.

Lemma lookup_upsert_other {K} `{Countable K} (k k' : K) (m : gmap K Z) :
  k <> k' -> upsert k m !! k' = m !! k'.
Proof.
  intros Hne. unfold upsert. destruct (m !! k); by rewrite lookup_insert_ne.
Qed.

Lemma consume_limit_cases r db scope rpd_limit rpm_limit :
  _consume_limit r db scope rpd_limit rpm_limit =
    let day_count := day_counter db r scope in
    let minute_count := minute_counter db r scope in
    if daily_exhausted rpd_limit day_count then
      ({| allowed := false;
          retry_after := Z.max 60 (seconds_until_next_midnight (now r));
          diagnostics := headers_with scope rpd_limit rpm_limit day_count minute_count |},
       db)
    else if minute_exhausted rpm_limit minute_count then
      ({| allowed := false;
          retry_after := Z.max 1 (60 - second_in_minute (time_at_retry r));
          diagnostics := headers_with scope rpd_limit rpm_limit day_count minute_count |},
       db)
    else
      ({| allowed := true;
          retry_after := 0;
          diagnostics :=
            headers_with scope rpd_limit rpm_limit (day_count + 1) (minute_count + 1) |},
       charged r db scope).
Proof.
  unfold _consume_limit, daily_exhausted, minute_exhausted, day_counter,
    minute_counter, select_day, select_minute, charged. cbn [_get_db
    delete_minutes_before pending stored usage_day usage_minute].
  rewrite lookup_pruned by lia. cbv zeta.
  destruct ((0 <? rpd_limit) && _) eqn:Ed; cbn [negb andb]; [reflexivity|].
  destruct ((0 <? rpm_limit) && _) eqn:Em; cbn [negb andb]; reflexivity.
Qed.

(** Counters of the charged ledger. *)
Lemma charged_day_same r r' db scope :
  strftime_Ymd (now r') = strftime_Ymd (now r) ->
  day_counter (charged r db scope) r' scope = day_counter db r' scope + 1.
Proof.
  intros Hd. unfold day_counter, charged. cbn. rewrite Hd.
  apply lookup_upsert_same.
Qed.

Lemma charged_day_other r db scope (d s : string) :
  (d, s) <> (strftime_Ymd (now r), scope) ->
  usage_day (charged r db scope) !! (d, s) = usage_day db !! (d, s).
Proof.
  intros Hne. unfold charged. cbn. by rewrite lookup_upsert_other.
Qed.

Lemma charged_minute_same r r' db scope :
  minute_of (time_at_bucket r') = minute_of (time_at_bucket r) ->
  minute_counter (charged r db scope) r' scope = minute_counter db r' scope + 1.
Proof.
  intros Hm. unfold minute_counter, charged. cbn. rewrite Hm.
  rewrite lookup_upsert_same, lookup_pruned by lia. done.
Qed.

Lemma charged_minute_other r db scope (m : Z) (s : string) :
  (m, s) <> (minute_of (time_at_bucket r), scope) ->
  minute_of (time_at_bucket r) - 10 <= m ->
  usage_minute (charged r db scope) !! (m, s) = usage_minute db !! (m, s).
Proof.
  intros Hne Hb. unfold charged. cbn.
  rewrite lookup_upsert_other by done. by apply lookup_pruned.
Qed.

(** Between 1 and 86400 whole seconds are left until midnight, the last
    second of the day apart, where none is. *)
Lemma seconds_until_next_midnight_range n :
  valid_time_of_day n -> 0 <= seconds_until_next_midnight n <= 86400.
Proof.
  unfold valid_time_of_day, seconds_until_next_midnight, microseconds_since_midnight.
  intros (Hh & Hm & Hs & Hu).
  rewrite Z.quot_div_nonneg by lia. split.
  - apply Z.div_pos; lia.
  - apply Z.div_le_upper_bound; lia.
Qed.

Lemma second_in_minute_range t : 0 <= second_in_minute t <= 59.
Proof.
  unfold second_in_minute.
  pose proof (Z.mod_pos_bound t 60000000 ltac:(lia)) as Hm.
  split.
  - apply Z.div_pos; lia.
  - apply Z.lt_succ_r. apply Z.div_lt_upper_bound; lia.
Qed.

Lemma minute_retry_range t :
  1 <= Z.max 1 (60 - second_in_minute t) <= 60.
Proof. pose proof (second_in_minute_range t). lia. Qed.

(** An admitted evaluation, from the counters it found. *)
Lemma consume_limit_admits r db scope rpd_limit rpm_limit :
  daily_exhausted rpd_limit (day_counter db r scope) = false ->
  minute_exhausted rpm_limit (minute_counter db r scope) = false ->
  _consume_limit r db scope rpd_limit rpm_limit =
    ({| allowed := true; retry_after := 0;
        diagnostics :=
          headers_with scope rpd_limit rpm_limit
            (day_counter db r scope + 1) (minute_counter db r scope + 1) |},
     charged r db scope).
Proof. intros Hd Hm. rewrite consume_limit_cases. cbv zeta. by rewrite Hd, Hm. Qed.

Lemma consume_limit_denies_day r db scope rpd_limit rpm_limit :
  daily_exhausted rpd_limit (day_counter db r scope) = true ->
  _consume_limit r db scope rpd_limit rpm_limit =
    ({| allowed := false;
        retry_after := Z.max 60 (seconds_until_next_midnight (now r));
        diagnostics :=
          headers_with scope rpd_limit rpm_limit
            (day_counter db r scope) (minute_counter db r scope) |},
     db).
Proof. intros Hd. rewrite consume_limit_cases. cbv zeta. by rewrite Hd. Qed.

Lemma consume_limit_denies_minute r db scope rpd_limit rpm_limit :
  daily_exhausted rpd_limit (day_counter db r scope) = false ->
  minute_exhausted rpm_limit (minute_counter db r scope) = true ->
  _consume_limit r db scope rpd_limit rpm_limit =
    ({| allowed := false;
        retry_after := Z.max 1 (60 - second_in_minute (time_at_retry r));
        diagnostics :=
          headers_with scope rpd_limit rpm_limit
            (day_counter db r scope) (minute_counter db r scope) |},
     db).
Proof. intros Hd Hm. rewrite consume_limit_cases. cbv zeta. by rewrite Hd, Hm. Qed.

(** The decision is admitted exactly when neither test fires. *)
Lemma consume_limit_allowed r db scope rpd_limit rpm_limit :
  allowed (fst (_consume_limit r db scope rpd_limit rpm_limit)) =
    negb (daily_exhausted rpd_limit (day_counter db r scope))
    && negb (minute_exhausted rpm_limit (minute_counter db r scope)).
Proof.
  rewrite consume_limit_cases. cbv zeta.
  destruct (daily_exhausted _ _); [done|].
  by destruct (minute_exhausted _ _).
Qed.

Lemma consume_limit_denied_ledger r db scope rpd_limit rpm_limit :
  allowed (fst (_consume_limit r db scope rpd_limit rpm_limit)) = false ->
  snd (_consume_limit r db scope rpd_limit rpm_limit) = db.
Proof.
  rewrite consume_limit_cases. cbv zeta.
  destruct (daily_exhausted _ _); [done|].
  by destruct (minute_exhausted _ _).
Qed.

Lemma consume_limit_allowed_ledger r db scope rpd_limit rpm_limit :
  allowed (fst (_consume_limit r db scope rpd_limit rpm_limit)) = true ->
  snd (_consume_limit r db scope rpd_limit rpm_limit) = charged r db scope.
Proof.
  rewrite consume_limit_cases. cbv zeta.
  destruct (daily_exhausted _ _); [done|].
  by destruct (minute_exhausted _ _).
Qed.

(** C3: a denied evaluation leaves the whole ledger as it was, so both
    counters of the scope keep their value and the same evaluation made
    again gives the same decision and the same counts; an admitted
    evaluation adds exactly 1 to the day counter and exactly 1 to the
    minute counter of the scope. There is no outcome in which one counter
    moves without the other. *)
Theorem consume_limit_all_or_nothing r db scope rpd_limit rpm_limit :
  let '(d, db') := _consume_limit r db scope rpd_limit rpm_limit in
  if allowed d then
    day_counter db' r scope = day_counter db r scope + 1 /\
    minute_counter db' r scope = minute_counter db r scope + 1
  else
    db' = db /\
    day_counter db' r scope = day_counter db r scope /\
    minute_counter db' r scope = minute_counter db r scope /\
    _consume_limit r db' scope rpd_limit rpm_limit = (d, db').
Proof.
  rewrite consume_limit_cases. cbv zeta.
  destruct (daily_exhausted _ _) eqn:Ed; cbn [allowed].
  - repeat split. rewrite consume_limit_cases. cbv zeta. by rewrite Ed.
  - destruct (minute_exhausted _ _) eqn:Em; cbn [allowed].
    + repeat split. rewrite consume_limit_cases. cbv zeta. by rewrite Ed, Em.
    + split; [by apply charged_day_same | by apply charged_minute_same].
Qed.

(** C8: a limit of 0 switches its test off. With a daily limit of 0 the
    decision is admitted exactly when the minute test does not fire, and a
    denial carries the minute rule's retry-after; with a minute limit of 0
    it is admitted exactly when the daily test does not fire; with both 0
    it is always admitted. Every admitted evaluation still adds 1 to both
    counters, whatever the limits. *)
Theorem zero_limit_disables_check r db scope :
  (forall rpm_limit,
     let d := fst (_consume_limit r db scope 0 rpm_limit) in
     allowed d = negb (minute_exhausted rpm_limit (minute_counter db r scope)) /\
     (allowed d = false ->
      retry_after d = Z.max 1 (60 - second_in_minute (time_at_retry r)))) /\
  (forall rpd_limit,
     allowed (fst (_consume_limit r db scope rpd_limit 0)) =
       negb (daily_exhausted rpd_limit (day_counter db r scope))) /\
  allowed (fst (_consume_limit r db scope 0 0)) = true /\
  (forall rpd_limit rpm_limit,
     allowed (fst (_consume_limit r db scope rpd_limit rpm_limit)) = true ->
     let db' := snd (_consume_limit r db scope rpd_limit rpm_limit) in
     day_counter db' r scope = day_counter db r scope + 1 /\
     minute_counter db' r scope = minute_counter db r scope + 1).
Proof.
  split; [|split; [|split]].
  - intros rpm_limit. cbv zeta. split.
    + by rewrite consume_limit_allowed.
    + rewrite consume_limit_cases. cbv zeta.
      replace (daily_exhausted 0 _) with false by done.
      by destruct (minute_exhausted _ _).
  - intros rpd_limit. rewrite consume_limit_allowed. unfold minute_exhausted.
    cbn. by rewrite andb_true_r.
  - by rewrite consume_limit_allowed.
  - intros rpd_limit rpm_limit Ha. cbv zeta.
    rewrite consume_limit_allowed_ledger by done.
    split; [by apply charged_day_same | by apply charged_minute_same].
Qed.

(** ** Runs of evaluations *)

Lemma attempts_cons r rs db scope N M :
  attempts (r :: rs) db scope N M =
    (fst (_consume_limit r db scope N M)
       :: fst (attempts rs (snd (_consume_limit r db scope N M)) scope N M),
     snd (attempts rs (snd (_consume_limit r db scope N M)) scope N M)).
Proof.
  cbn [attempts]. destruct (_consume_limit r db scope N M) as [d db1].
  cbn [fst snd]. by destruct (attempts rs db1 scope N M).
Qed.

Lemma attempts_take i rs db scope N M :
  fst (attempts (take i rs) db scope N M) = take i (fst (attempts rs db scope N M)).
Proof.
  revert i db. induction rs as [|r rs IH]; intros [|i] db; try done.
  cbn [take]. rewrite !attempts_cons. cbn [fst take]. by rewrite IH.
Qed.

Lemma attempts_lookup i r rs db scope N M :
  rs !! i = Some r ->
  fst (attempts rs db scope N M) !! i =
    Some (fst (_consume_limit r (snd (attempts (take i rs) db scope N M)) scope N M)).
Proof.
  revert i db. induction rs as [|r0 rs IH]; intros [|i] db Hi; try done.
  - injection Hi as ->. by rewrite attempts_cons.
  - cbn [take]. rewrite !attempts_cons. cbn [fst snd]. by apply IH.
Qed.

Lemma attempts_lookup_inv i d rs db scope N M :
  fst (attempts rs db scope N M) !! i = Some d ->
  exists r, rs !! i = Some r /\
    d = fst (_consume_limit r (snd (attempts (take i rs) db scope N M)) scope N M).
Proof.
  revert i db. induction rs as [|r0 rs IH]; intros [|i] db Hi; try done.
  - rewrite attempts_cons in Hi. injection Hi as <-. by exists r0.
  - rewrite attempts_cons in Hi. cbn [fst] in Hi.
    destruct (IH _ _ Hi) as (r & Hr & ->). exists r. split; [done|].
    cbn [take]. by rewrite attempts_cons.
Qed.

Lemma admissions_cons d ds :
  admissions (d :: ds) = (if allowed d then 1 else 0) + admissions ds.
Proof. unfold admissions. cbn [List.filter]. destruct (allowed d); cbn [length]; lia. Qed.

(** The day row of a scope counts the admissions of the run made on that
    day; likewise the minute row. *)
Lemma attempts_day_count day rs db scope N M :
  Forall (fun r => strftime_Ymd (now r) = day) rs ->
  count_of (usage_day (snd (attempts rs db scope N M)) !! (day, scope)) =
    count_of (usage_day db !! (day, scope)) + admissions (fst (attempts rs db scope N M)).
Proof.
  intros Hrs. revert db. induction Hrs as [|r rs Hr Hrs IH]; intros db.
  - cbn. unfold admissions. cbn. lia.
  - rewrite attempts_cons. cbn [fst snd]. rewrite IH, admissions_cons.
    destruct (allowed _) eqn:Ea.
    + rewrite consume_limit_allowed_ledger by done.
      pose proof (charged_day_same r r db scope eq_refl) as Hc.
      unfold day_counter in Hc. rewrite Hr in Hc. lia.
    + rewrite consume_limit_denied_ledger by done. lia.
Qed.

Lemma attempts_minute_count minute rs db scope N M :
  Forall (fun r => minute_of (time_at_bucket r) = minute) rs ->
  count_of (usage_minute (snd (attempts rs db scope N M)) !! (minute, scope)) =
    count_of (usage_minute db !! (minute, scope))
    + admissions (fst (attempts rs db scope N M)).
Proof.
  intros Hrs. revert db. induction Hrs as [|r rs Hr Hrs IH]; intros db.
  - cbn. unfold admissions. cbn. lia.
  - rewrite attempts_cons. cbn [fst snd]. rewrite IH, admissions_cons.
    destruct (allowed _) eqn:Ea.
    + rewrite consume_limit_allowed_ledger by done.
      pose proof (charged_minute_same r r db scope eq_refl) as Hc.
      unfold minute_counter in Hc. rewrite Hr in Hc. lia.
    + rewrite consume_limit_denied_ledger by done. lia.
Qed.

(** With a positive limit, a run never takes a row past the limit it was
    under at the start. *)
Lemma attempts_day_bound day rs db scope N M :
  0 < N ->
  Forall (fun r => strftime_Ymd (now r) = day) rs ->
  count_of (usage_day db !! (day, scope)) <= N ->
  count_of (usage_day db !! (day, scope)) + admissions (fst (attempts rs db scope N M)) <= N.
Proof.
  intros HN Hrs. revert db. induction Hrs as [|r rs Hr Hrs IH]; intros db Hc.
  - unfold admissions. cbn. lia.
  - rewrite attempts_cons. cbn [fst]. rewrite admissions_cons.
    destruct (allowed _) eqn:Ea.
    + pose proof Ea as Ea'. rewrite consume_limit_allowed in Ea'.
      apply andb_true_iff in Ea' as [Hd _]. apply negb_true_iff in Hd.
      unfold daily_exhausted, day_counter in Hd. rewrite Hr in Hd.
      assert (count_of (usage_day db !! (day, scope)) < N) as Hlt.
      { destruct (Z.ltb_spec 0 N); [|lia].
        destruct (Z.leb_spec N (count_of (usage_day db !! (day, scope)))); [done|lia]. }
      rewrite consume_limit_allowed_ledger in * by done.
      pose proof (charged_day_same r r db scope eq_refl) as Hch.
      unfold day_counter in Hch. rewrite Hr in Hch.
      specialize (IH (charged r db scope)). lia.
    + rewrite consume_limit_denied_ledger by done. specialize (IH db Hc). lia.
Qed.

Lemma attempts_minute_bound minute rs db scope N M :
  0 < M ->
  Forall (fun r => minute_of (time_at_bucket r) = minute) rs ->
  count_of (usage_minute db !! (minute, scope)) <= M ->
  count_of (usage_minute db !! (minute, scope))
  + admissions (fst (attempts rs db scope N M)) <= M.
Proof.
  intros HM Hrs. revert db. induction Hrs as [|r rs Hr Hrs IH]; intros db Hc.
  - unfold admissions. cbn. lia.
  - rewrite attempts_cons. cbn [fst]. rewrite admissions_cons.
    destruct (allowed _) eqn:Ea.
    + pose proof Ea as Ea'. rewrite consume_limit_allowed in Ea'.
      apply andb_true_iff in Ea' as [_ Hm]. apply negb_true_iff in Hm.
      unfold minute_exhausted, minute_counter in Hm. rewrite Hr in Hm.
      assert (count_of (usage_minute db !! (minute, scope)) < M) as Hlt.
      { destruct (Z.ltb_spec 0 M); [|lia].
        destruct (Z.leb_spec M (count_of (usage_minute db !! (minute, scope)))); [done|lia]. }
      rewrite consume_limit_allowed_ledger in * by done.
      pose proof (charged_minute_same r r db scope eq_refl) as Hch.
      unfold minute_counter in Hch. rewrite Hr in Hch.
      specialize (IH (charged r db scope)). lia.
    + rewrite consume_limit_denied_ledger by done. specialize (IH db Hc). lia.
Qed.

Lemma admissions_app ds1 ds2 :
  admissions (ds1 ++ ds2) = admissions ds1 + admissions ds2.
Proof.
  unfold admissions. rewrite List.filter_app, length_app. lia.
Qed.

(** The counters the [i]-th evaluation of a run finds. *)
Lemma attempts_day_counter_at day rs db scope N M i r :
  Forall (fun r => strftime_Ymd (now r) = day) rs ->
  rs !! i = Some r ->
  day_counter (snd (attempts (take i rs) db scope N M)) r scope =
    count_of (usage_day db !! (day, scope))
    + admissions (take i (fst (attempts rs db scope N M))).
Proof.
  intros Hrs Hi. unfold day_counter.
  rewrite (proj1 (Forall_lookup _ _) Hrs i r Hi).
  rewrite (attempts_day_count day) by by apply Forall_take.
  by rewrite attempts_take.
Qed.

Lemma attempts_minute_counter_at minute rs db scope N M i r :
  Forall (fun r => minute_of (time_at_bucket r) = minute) rs ->
  rs !! i = Some r ->
  minute_counter (snd (attempts (take i rs) db scope N M)) r scope =
    count_of (usage_minute db !! (minute, scope))
    + admissions (take i (fst (attempts rs db scope N M))).
Proof.
  intros Hrs Hi. unfold minute_counter.
  rewrite (proj1 (Forall_lookup _ _) Hrs i r Hi).
  rewrite (attempts_minute_count minute) by by apply Forall_take.
  by rewrite attempts_take.
Qed.

(** When the minute test never fires, the admissions of the first [i]
    evaluations of a day are [min i N]. *)
Lemma attempts_day_prefix day rs db scope N M :
  0 < N ->
  Forall (fun r => strftime_Ymd (now r) = day) rs ->
  usage_day db !! (day, scope) = None ->
  (forall i r, rs !! i = Some r ->
     minute_exhausted M
       (minute_counter (snd (attempts (take i rs) db scope N M)) r scope) = false) ->
  forall i, (i <= length rs)%nat ->
    admissions (take i (fst (attempts rs db scope N M))) = Z.min (Z.of_nat i) N.
Proof.
  intros HN Hrs Hfresh Hmin i. induction i as [|i IH]; intros Hi.
  - rewrite take_0. unfold admissions. cbn. lia.
  - destruct (lookup_lt_is_Some_2 rs i ltac:(lia)) as [r Hr].
    pose proof (attempts_lookup i r rs db scope N M Hr) as Hd.
    rewrite (take_S_r _ _ _ Hd), admissions_app, IH by lia.
    rewrite admissions_cons. unfold admissions at 1. cbn [List.filter length].
    rewrite consume_limit_allowed, (Hmin i r Hr).
    rewrite (attempts_day_counter_at day) by done.
    rewrite Hfresh, IH by lia. cbn [count_of]. unfold daily_exhausted.
    destruct (Z.ltb_spec 0 N); [|lia].
    destruct (Z.leb_spec N (0 + Z.min (Z.of_nat i) N)); cbn; lia.
Qed.

Lemma attempts_first_N day rs db scope N M :
  0 < N ->
  Forall (fun r => strftime_Ymd (now r) = day) rs ->
  usage_day db !! (day, scope) = None ->
  (forall i r, rs !! i = Some r ->
     minute_exhausted M
       (minute_counter (snd (attempts (take i rs) db scope N M)) r scope) = false) ->
  forall i d, fst (attempts rs db scope N M) !! i = Some d ->
    allowed d = (Z.of_nat i <? N).
Proof.
  intros HN Hrs Hfresh Hmin i d Hd.
  destruct (attempts_lookup_inv _ _ _ _ _ _ _ Hd) as (r & Hr & ->).
  rewrite consume_limit_allowed, (Hmin i r Hr).
  rewrite (attempts_day_counter_at day) by done.
  rewrite (attempts_day_prefix day) by
    (try done; apply Nat.lt_le_incl; by eapply lookup_lt_Some).
  rewrite Hfresh. cbn [count_of]. unfold daily_exhausted.
  destruct (Z.ltb_spec 0 N); [|lia].
  destruct (Z.leb_spec N (0 + Z.min (Z.of_nat i) N));
    destruct (Z.ltb_spec (Z.of_nat i) N); cbn; lia.
Qed.

(** C1, amended: with a daily limit [N > 0], an evaluation that finds the
    day counter of its scope at [N] or more is denied with
    [retry_after = max(60, whole seconds until the next UTC midnight)] and
    changes nothing. Hence, in a run of evaluations of one UTC day that
    starts with no row for that day: at most [N] are admitted; every
    evaluation made once [N] have been admitted is denied with
    [retry_after >= 60]; and when no evaluation of the run is stopped by
    the minute test, as is the case with a minute limit of 0, exactly the
    first [N] are admitted. *)
Theorem daily_limit_admissions scope N M (HN : 0 < N) :
  (forall r db,
     N <= day_counter db r scope ->
     let '(d, db') := _consume_limit r db scope N M in
     allowed d = false /\
     retry_after d = Z.max 60 (seconds_until_next_midnight (now r)) /\
     60 <= retry_after d /\
     db' = db) /\
  (forall day rs db,
     Forall (fun r => strftime_Ymd (now r) = day) rs ->
     usage_day db !! (day, scope) = None ->
     let ds := fst (attempts rs db scope N M) in
     admissions ds <= N /\
     (forall i r d,
        rs !! i = Some r -> ds !! i = Some d ->
        N <= admissions (take i ds) ->
        allowed d = false /\
        retry_after d = Z.max 60 (seconds_until_next_midnight (now r)) /\
        60 <= retry_after d) /\
     ((forall i r, rs !! i = Some r ->
         minute_exhausted M
           (minute_counter (snd (attempts (take i rs) db scope N M)) r scope) = false) ->
      forall i d, ds !! i = Some d -> allowed d = (Z.of_nat i <? N)) /\
     (M <= 0 ->
      forall i d, ds !! i = Some d -> allowed d = (Z.of_nat i <? N))).
Proof.
  assert (forall r db, N <= day_counter db r scope ->
            daily_exhausted N (day_counter db r scope) = true) as Hex.
  { intros r db Hc. unfold daily_exhausted.
    apply andb_true_iff. split; [apply Z.ltb_lt | apply Z.leb_le]; lia. }
  split.
  - intros r db Hc. rewrite consume_limit_denies_day by auto.
    cbn [allowed retry_after]. split; [done|]. split; [done|]. split; [lia|done].
  - intros day rs db Hrs Hfresh. cbv zeta. split; [|split; [|split]].
    + pose proof (attempts_day_bound day rs db scope N M HN Hrs) as Hb.
      rewrite Hfresh in Hb. cbn [count_of] in Hb. lia.
    + intros i r d Hr Hd Hfull.
      rewrite (attempts_lookup i r) in Hd by done. injection Hd as <-.
      rewrite consume_limit_denies_day.
      * cbn [allowed retry_after fst]. split; [done|]. split; [done|lia].
      * apply Hex. rewrite (attempts_day_counter_at day) by done.
        rewrite Hfresh. cbn [count_of]. lia.
    + intros Hmin. by apply (attempts_first_N day).
    + intros HM. apply (attempts_first_N day); try done.
      intros i r _. unfold minute_exhausted.
      destruct (Z.ltb_spec 0 M); [lia|done].
Qed.

(** C1 as stated fails: with limits (2, 1) the second evaluation of the day,
    made in the same minute as the first, is denied by the minute test, so
    the first N = 2 evaluations do not all succeed. *)
Lemma daily_limit_first_N_refuted :
  exists d,
    fst (attempts [sample_reading; sample_later 1] empty_ledger "gemini:x" 2 1)
      !! 1%nat = Some d /\
    strftime_Ymd (now sample_reading) = strftime_Ymd (now (sample_later 1)) /\
    allowed d = false /\ retry_after d = 17.
Proof. eexists. split; [vm_compute; reflexivity|]. vm_compute. auto. Qed.

Lemma daily_limit_admissions_witness :
  0 < 2 /\
  Forall (fun r => strftime_Ymd (now r) = "2026-03-07")
    [sample_reading; sample_later 1; sample_later 2] /\
  map allowed
    (fst (attempts [sample_reading; sample_later 1; sample_later 2]
            empty_ledger "gemini:x" 2 0)) = [true; true; false] /\
  admissions
    (fst (attempts [sample_reading; sample_later 1; sample_later 2]
            empty_ledger "gemini:x" 2 0)) <= 2.
Proof.
  assert (0 < 2) as H2 by lia.
  assert (Forall (fun r => strftime_Ymd (now r) = "2026-03-07")
            [sample_reading; sample_later 1; sample_later 2]) as Hday.
  { repeat constructor. }
  destruct (daily_limit_admissions "gemini:x" 2 0 H2) as [_ Hrun].
  destruct (Hrun "2026-03-07" _ empty_ledger Hday eq_refl) as (Hle & _ & _ & _).
  split; [exact H2|]. split; [exact Hday|]. split; [|exact Hle].
  vm_compute. reflexivity.
Defined.

(** C2, amended: with a minute limit [M > 0], an evaluation that passes the
    daily test and finds the minute counter of its scope at [M] or more is
    denied with [retry_after = max(1, 60 - (now_seconds mod 60))], which
    lies between 1 and 60, and changes nothing. Hence, in a run of
    evaluations of one minute bucket that starts with no row for that
    minute: at most [M] are admitted, and every evaluation made once [M]
    have been admitted is denied; its retry-after lies between 1 and 60
    when it passes the daily test, and is the daily rule's
    [max(60, seconds until midnight)] when it does not. *)
Theorem minute_limit_admissions scope N M (HM : 0 < M) :
  (forall r db,
     daily_exhausted N (day_counter db r scope) = false ->
     M <= minute_counter db r scope ->
     let '(d, db') := _consume_limit r db scope N M in
     allowed d = false /\
     retry_after d = Z.max 1 (60 - second_in_minute (time_at_retry r)) /\
     1 <= retry_after d <= 60 /\
     db' = db) /\
  (forall minute rs db,
     Forall (fun r => minute_of (time_at_bucket r) = minute) rs ->
     usage_minute db !! (minute, scope) = None ->
     let ds := fst (attempts rs db scope N M) in
     admissions ds <= M /\
     (forall i r d,
        rs !! i = Some r -> ds !! i = Some d ->
        M <= admissions (take i ds) ->
        allowed d = false /\
        if daily_exhausted N
             (day_counter (snd (attempts (take i rs) db scope N M)) r scope)
        then retry_after d = Z.max 60 (seconds_until_next_midnight (now r))
        else retry_after d = Z.max 1 (60 - second_in_minute (time_at_retry r)) /\
             1 <= retry_after d <= 60)).
Proof.
  assert (forall r db, M <= minute_counter db r scope ->
            minute_exhausted M (minute_counter db r scope) = true) as Hex.
  { intros r db Hc. unfold minute_exhausted.
    apply andb_true_iff. split; [apply Z.ltb_lt | apply Z.leb_le]; lia. }
  split.
  - intros r db Hd Hc. rewrite consume_limit_denies_minute by auto.
    cbn [allowed retry_after].
    pose proof (minute_retry_range (time_at_retry r)).
    split; [done|]. split; [done|]. split; [lia|done].
  - intros minute rs db Hrs Hfresh. cbv zeta. split.
    + pose proof (attempts_minute_bound minute rs db scope N M HM Hrs) as Hb.
      rewrite Hfresh in Hb. cbn [count_of] in Hb. lia.
    + intros i r d Hr Hd Hfull.
      rewrite (attempts_lookup i r) in Hd by done. injection Hd as <-.
      assert (minute_exhausted M
                (minute_counter (snd (attempts (take i rs) db scope N M)) r scope)
              = true) as Hm.
      { apply Hex. rewrite (attempts_minute_counter_at minute) by done.
        rewrite Hfresh. cbn [count_of]. lia. }
      destruct (daily_exhausted N _) eqn:Ed.
      * rewrite consume_limit_denies_day by done. cbn [allowed retry_after fst].
        done.
      * rewrite consume_limit_denies_minute by done. cbn [allowed retry_after fst].
        pose proof (minute_retry_range (time_at_retry r)). done.
Qed.

(** C2 as stated fails: with limits (1, 1) the second evaluation of the
    minute is denied by the daily test, and its retry-after is the time to
    midnight, far above 60. *)
Lemma minute_limit_retry_refuted :
  exists d,
    fst (attempts [sample_reading; sample_later 1] empty_ledger "gemini:x" 1 1)
      !! 1%nat = Some d /\
    minute_of (time_at_bucket sample_reading)
      = minute_of (time_at_bucket (sample_later 1)) /\
    allowed d = false /\ retry_after d = 39256 /\ ~ (1 <= retry_after d <= 60).
Proof.
  eexists. split; [vm_compute; reflexivity|]. cbn [retry_after allowed].
  split; [vm_compute; reflexivity|]. split; [done|]. split; [done|]. lia.
Qed.

Lemma minute_limit_admissions_witness :
  let ds := fst (attempts six_readings empty_ledger "gemini:x" 20 5) in
  let db5 := snd (attempts (take 5 six_readings) empty_ledger "gemini:x" 20 5) in
  admissions ds <= 5 /\
  admissions (take 5 ds) = 5 /\
  5 <= minute_counter db5 (sample_later 5) "gemini:x" /\
  snd (_consume_limit (sample_later 5) db5 "gemini:x" 20 5) = db5 /\
  exists d,
    ds !! 5%nat = Some d /\
    allowed d = false /\ retry_after d = 13 /\ 1 <= retry_after d <= 60.
Proof.
  cbv zeta.
  assert (0 < 5) as H5 by lia.
  assert (Forall (fun r => minute_of (time_at_bucket r) = 29548145) six_readings)
    as Hmin by (repeat constructor).
  destruct (minute_limit_admissions "gemini:x" 20 5 H5) as [Hone Hrun].
  destruct (Hrun 29548145 six_readings empty_ledger Hmin eq_refl) as (Hle & Hdeny).
  assert (admissions
            (take 5 (fst (attempts six_readings empty_ledger "gemini:x" 20 5))) = 5)
    as Hfull by (vm_compute; reflexivity).
  assert (5 <= minute_counter
                 (snd (attempts (take 5 six_readings) empty_ledger "gemini:x" 20 5))
                 (sample_later 5) "gemini:x") as Hcount
    by (apply Z.leb_le; vm_compute; reflexivity).
  assert (daily_exhausted 20
            (day_counter
               (snd (attempts (take 5 six_readings) empty_ledger "gemini:x" 20 5))
               (sample_later 5) "gemini:x") = false) as Hday
    by (vm_compute; reflexivity).
  split; [exact Hle|]. split; [exact Hfull|]. split; [exact Hcount|]. split.
  - specialize (Hone (sample_later 5) _ Hday Hcount).
    destruct (_consume_limit (sample_later 5) _ "gemini:x" 20 5) as [d db'].
    exact (proj2 (proj2 (proj2 Hone))).
  - destruct (fst (attempts six_readings empty_ledger "gemini:x" 20 5) !! 5%nat)
      as [d|] eqn:Hd; [|vm_compute in Hd; discriminate Hd].
    exists d.
    assert (5 <= admissions
                   (take 5 (fst (attempts six_readings empty_ledger "gemini:x" 20 5))))
      as Hfive by (rewrite Hfull; lia).
    destruct (Hdeny 5%nat (sample_later 5) d eq_refl Hd Hfive) as [Hdenied Hretry].
    rewrite Hday in Hretry. destruct Hretry as [Hvalue Hrange].
    split; [reflexivity|]. split; [exact Hdenied|]. split; [|exact Hrange].
    rewrite Hvalue. vm_compute. reflexivity.
Defined.

(** ** Diagnostics *)

Lemma consume_limit_decision r db scope N M :
  fst (_consume_limit r db scope N M) =
    decision_at r scope N M (day_counter db r scope) (minute_counter db r scope).
Proof.
  rewrite consume_limit_cases. unfold decision_at. cbv zeta.
  destruct (daily_exhausted _ _); [done|]. by destruct (minute_exhausted _ _).
Qed.

Lemma attempts_replay day minute rs db scope N M :
  Forall (fun r => strftime_Ymd (now r) = day) rs ->
  Forall (fun r => minute_of (time_at_bucket r) = minute) rs ->
  fst (attempts rs db scope N M) =
    replay rs scope N M (count_of (usage_day db !! (day, scope)))
      (count_of (usage_minute db !! (minute, scope))).
Proof.
  intros Hd. revert db. induction Hd as [|r rs Hr Hd IH]; intros db Hm; [done|].
  apply Forall_cons in Hm as [Hrm Hm].
  assert (day_counter db r scope = count_of (usage_day db !! (day, scope))) as Hdc
    by (unfold day_counter; by rewrite Hr).
  assert (minute_counter db r scope = count_of (usage_minute db !! (minute, scope)))
    as Hmc by (unfold minute_counter; by rewrite Hrm).
  pose proof (consume_limit_decision r db scope N M) as Hdec.
  rewrite Hdc, Hmc in Hdec.
  rewrite attempts_cons. cbn [fst replay]. rewrite Hdec. f_equal.
  rewrite IH by done.
  destruct (allowed (decision_at _ _ _ _ _ _)) eqn:Ea; rewrite <- Hdec in Ea.
  - rewrite consume_limit_allowed_ledger by done.
    pose proof (charged_day_same r r db scope eq_refl) as H1.
    pose proof (charged_minute_same r r db scope eq_refl) as H2.
    rewrite Hdc in H1. rewrite Hmc in H2.
    unfold day_counter in H1. unfold minute_counter in H2.
    rewrite Hr in H1. rewrite Hrm in H2. by rewrite H1, H2.
  - by rewrite consume_limit_denied_ledger.
Qed.

Lemma replay_admit r rest scope N M dc mc :
  daily_exhausted N dc = false ->
  minute_exhausted M mc = false ->
  replay (r :: rest) scope N M dc mc =
    {| allowed := true; retry_after := 0;
       diagnostics := headers_with scope N M (dc + 1) (mc + 1) |}
      :: replay rest scope N M (dc + 1) (mc + 1).
Proof. intros Hd Hm. cbn [replay]. unfold decision_at. by rewrite Hd, Hm. Qed.

Lemma replay_deny_minute r rest scope N M dc mc :
  daily_exhausted N dc = false ->
  minute_exhausted M mc = true ->
  replay (r :: rest) scope N M dc mc =
    {| allowed := false;
       retry_after := Z.max 1 (60 - second_in_minute (time_at_retry r));
       diagnostics := headers_with scope N M dc mc |}
      :: replay rest scope N M dc mc.
Proof. intros Hd Hm. cbn [replay]. unfold decision_at. by rewrite Hd, Hm. Qed.

Lemma dict_get_rpm_used scope N M used_day used_minute :
  dict_get "X-RateLimit-RPM-Used" (headers_with scope N M used_day used_minute)
    = Some (str used_minute).
Proof. reflexivity. Qed.

(** C7: the diagnostics of every decision hold the scope, both configured
    limits and both used counts, in this order; the used counts are the
    counters as found when the decision is a denial, and the counters after
    the increment (which are those of the ledger the call leaves) when it
    is an admission. With limits (20, 5) and no row yet for the scope, six
    evaluations in one day and minute give five admissions reporting
    RPM-Used 1, 2, 3, 4, 5 and a denial reporting RPM-Used 5 with a
    retry-after between 1 and 60. *)
Theorem diagnostics_report_used_counts :
  (forall r db scope N M,
     let '(d, db') := _consume_limit r db scope N M in
     let day_count := day_counter db r scope in
     let minute_count := minute_counter db r scope in
     diagnostics d =
       [ ("X-RateLimit-Scope", scope);
         ("X-RateLimit-RPD-Limit", str N);
         ("X-RateLimit-RPD-Used", str (if allowed d then day_count + 1 else day_count));
         ("X-RateLimit-RPM-Limit", str M);
         ("X-RateLimit-RPM-Used",
          str (if allowed d then minute_count + 1 else minute_count)) ] /\
     dict_get "X-RateLimit-RPD-Used" (diagnostics d)
       = Some (str (day_counter db' r scope)) /\
     dict_get "X-RateLimit-RPM-Used" (diagnostics d)
       = Some (str (minute_counter db' r scope))) /\
  (forall day minute rs db scope,
     length rs = 6%nat ->
     Forall (fun r => strftime_Ymd (now r) = day) rs ->
     Forall (fun r => minute_of (time_at_bucket r) = minute) rs ->
     usage_day db !! (day, scope) = None ->
     usage_minute db !! (minute, scope) = None ->
     let ds := fst (attempts rs db scope 20 5) in
     map allowed ds = [true; true; true; true; true; false] /\
     map (fun d => dict_get "X-RateLimit-RPM-Used" (diagnostics d)) ds
       = [Some "1"; Some "2"; Some "3"; Some "4"; Some "5"; Some "5"] /\
     (forall d, ds !! 5%nat = Some d -> 1 <= retry_after d <= 60)).
Proof.
  split.
  - intros r db scope N M. rewrite consume_limit_cases. cbv zeta.
    destruct (daily_exhausted _ _); cbn [allowed diagnostics]; [done|].
    destruct (minute_exhausted _ _); cbn [allowed diagnostics]; [done|].
    rewrite (charged_day_same r r db scope eq_refl).
    rewrite (charged_minute_same r r db scope eq_refl). done.
  - intros day minute rs db scope Hlen Hday Hmin Hfd Hfm. cbv zeta.
    rewrite (attempts_replay day minute) by done. rewrite Hfd, Hfm.
    do 7 (destruct rs as [|? rs]; try discriminate Hlen).
    cbn [count_of].
    do 5 (rewrite replay_admit by reflexivity).
    rewrite replay_deny_minute by reflexivity.
    cbn [replay map allowed diagnostics].
    rewrite !dict_get_rpm_used.
    split; [reflexivity|]. split; [vm_compute; reflexivity|].
    intros d Hd. cbn in Hd. injection Hd as <-. cbn [retry_after].
    apply minute_retry_range.
Qed.

(** ** Fallback selection *)

Section Selection.
Context `{Runtime}.

Lemma call_consume_limit_eq w scope rpd rpm :
  call_consume_limit w scope rpd rpm =
    (fst (_consume_limit (clock (length (evaluated w))) (db w) scope rpd rpm),
     {| db := snd (_consume_limit (clock (length (evaluated w))) (db w) scope rpd rpm);
        evaluated := evaluated w ++ [scope] |}).
Proof.
  unfold call_consume_limit. by destruct (_consume_limit _ _ _ _ _).
Qed.

Lemma verdicts_lookup ml database n cands j :
  verdicts ml database n cands !! j =
    (fun m => fst (verdict ml database (n + j) m)) <$> cands !! j.
Proof.
  revert n j. induction cands as [|m rest IH]; intros n [|j]; cbn; try done.
  - by rewrite Nat.add_0_r.
  - rewrite IH. by rewrite Nat.add_succ_r.
Qed.

Lemma verdicts_length ml database n cands :
  length (verdicts ml database n cands) = length cands.
Proof. revert n. induction cands as [|m rest IH]; intros n; cbn; [done|]. by rewrite IH. Qed.

Lemma candidates_cons_in m rest (allowed_models : gset string) :
  m ∈ allowed_models ->
  candidates (m :: rest) allowed_models = m :: candidates rest allowed_models.
Proof. intros Hin. unfold candidates. cbn. by rewrite bool_decide_eq_true_2. Qed.

Lemma candidates_cons_out m rest (allowed_models : gset string) :
  m ∉ allowed_models ->
  candidates (m :: rest) allowed_models = candidates rest allowed_models.
Proof. intros Hin. unfold candidates. cbn. by rewrite bool_decide_eq_false_2. Qed.

(** The loop, by its two exits. Denials leave the ledger as it is, so every
    candidate tried is judged against the ledger the loop started with. *)
Lemma pick_loop_spec ml (allowed_models : gset string) preferred last_headers mx w :
  let cands := candidates preferred allowed_models in
  let n := length (evaluated w) in
  let vs := verdicts ml (db w) n cands in
  (exists j m d,
      cands !! j = Some m /\ vs !! j = Some d /\ allowed d = true /\
      Forall (fun d' => allowed d' = false) (take j vs) /\
      pick_loop ml allowed_models preferred last_headers mx w =
        ((Some m, Some (diagnostics d), 0),
         {| db := charged (clock (n + j)) (db w) (model_scope m);
            evaluated := evaluated w ++ map model_scope (take (S j) cands) |}))
  \/
  (Forall (fun d => allowed d = false) vs /\
   pick_loop ml allowed_models preferred last_headers mx w =
     ((None,
       match last vs with
       | Some d => Some (diagnostics d)
       | None => last_headers
       end,
       let mx' := running_max mx (map retry_after vs) in
       if mx' =? 0 then 60 else mx'),
      {| db := db w; evaluated := evaluated w ++ map model_scope cands |})).
Proof.
  cbv zeta. revert last_headers mx w.
  induction preferred as [|m rest IH]; intros last_headers mx w.
  - right. split; [constructor|]. cbn. rewrite app_nil_r. by destruct w.
  - destruct (decide (m ∈ allowed_models)) as [Hin|Hout].
    2:{ rewrite candidates_cons_out by done. cbn [pick_loop].
        rewrite bool_decide_eq_false_2 by done. apply IH. }
    rewrite candidates_cons_in by done. cbn [pick_loop verdicts].
    rewrite bool_decide_eq_true_2 by done.
    assert (verdict ml (db w) (length (evaluated w)) m =
            _consume_limit (clock (length (evaluated w))) (db w) (model_scope m)
              (fst (limits_for ml m)) (snd (limits_for ml m))) as Hv by reflexivity.
    destruct (limits_for ml m) as [rpd rpm] eqn:El. cbn [fst snd] in Hv.
    rewrite call_consume_limit_eq, Hv. clear Hv.
    destruct (allowed (fst (_consume_limit _ _ _ _ _))) eqn:Ea.
    + left. exists 0%nat, m. eexists. cbn [take map].
      split; [done|]. split; [done|]. split; [exact Ea|]. split; [constructor|].
      rewrite Nat.add_0_r. by rewrite consume_limit_allowed_ledger by done.
    + rewrite consume_limit_denied_ledger by done.
      set (c := _consume_limit (clock (length (evaluated w))) (db w)
                  (model_scope m) rpd rpm) in *.
      specialize (IH (Some (diagnostics (fst c))) (Z.max mx (retry_after (fst c)))
                    {| db := db w; evaluated := evaluated w ++ [model_scope m] |}).
      cbn [db evaluated] in IH. rewrite length_app in IH. cbn [length] in IH.
      rewrite Nat.add_1_r in IH.
      destruct IH as [(j & m' & d & Hj & Hd & Hda & Hpre & Heq) | (Hall & Heq)].
      * left. exists (S j), m', d. cbn [take map].
        split; [done|]. split; [done|]. split; [done|].
        split; [by constructor|]. rewrite Heq.
        rewrite Nat.add_succ_r, <- app_assoc. done.
      * right. split; [by constructor|]. rewrite Heq.
        rewrite <- app_assoc. cbn [map running_max fold_left app].
        f_equal. f_equal. f_equal.
        rewrite last_cons. by destruct (last _).
Qed.

End Selection.

Lemma running_max_ge_start start l : start <= running_max start l.
Proof.
  unfold running_max. revert start. induction l as [|x l IH]; intros start; cbn; [lia|].
  specialize (IH (Z.max start x)). lia.
Qed.

Lemma running_max_upper start l x : x ∈ l -> x <= running_max start l.
Proof.
  unfold running_max. revert start. induction l as [|y l IH]; intros start Hx.
  - by apply elem_of_nil in Hx.
  - apply elem_of_cons in Hx as [->|Hx]; cbn.
    + pose proof (running_max_ge_start (Z.max start y) l) as Hge.
      unfold running_max in Hge. lia.
    + by apply IH.
Qed.

Lemma running_max_attained start l :
  running_max start l = start \/ running_max start l ∈ l.
Proof.
  unfold running_max. revert start. induction l as [|y l IH]; intros start; cbn.
  - by left.
  - destruct (IH (Z.max start y)) as [Heq|Hin].
    + rewrite Heq. destruct (Z.max_spec start y) as [[_ ->]|[_ ->]].
      * right. apply elem_of_cons. by left.
      * by left.
    + right. apply elem_of_cons. by right.
Qed.

(** A denial always asks for a wait of at least one second. *)
Lemma denied_retry_positive r database scope rpd rpm :
  allowed (fst (_consume_limit r database scope rpd rpm)) = false ->
  1 <= retry_after (fst (_consume_limit r database scope rpd rpm)).
Proof.
  rewrite consume_limit_cases. cbv zeta.
  destruct (daily_exhausted _ _); cbn [fst allowed retry_after]; [lia|].
  destruct (minute_exhausted _ _); cbn [fst allowed retry_after]; [lia|done].
Qed.

Section SelectionClaims.
Context `{Runtime}.

Lemma verdicts_elem ml database n cands d :
  d ∈ verdicts ml database n cands ->
  exists j m, cands !! j = Some m /\ d = fst (verdict ml database (n + j) m).
Proof.
  intros Hd. apply list_elem_of_lookup in Hd as [j Hj].
  rewrite verdicts_lookup in Hj.
  destruct (cands !! j) as [m|] eqn:Em; [|done].
  injection Hj as <-. by exists j, m.
Qed.

(** C5: [_pick_model] goes through the preferred models in their order and
    leaves out those that are not allowed. Each model it tries is evaluated
    once, under its own scope [gemini:<model>] and its own limit pair. It
    stops at the first admitted model and returns it with that decision's
    diagnostics and a retry-after of 0; the models before it were all
    denied. If nobody is admitted it returns no model, the diagnostics of
    the last model tried, and, when at least one model was tried, the
    maximum of the retry-after values of all models tried; the ledger is
    then as it was. *)
Theorem pick_model_first_fit env preferred (allowed_models : gset string) w :
  let ml := _parse_model_limits env in
  let cands := candidates preferred allowed_models in
  let n := length (evaluated w) in
  let vs := verdicts ml (db w) n cands in
  let '((model, hdrs, retry), w') := _pick_model env preferred allowed_models w in
  match model with
  | Some m =>
      exists j d,
        cands !! j = Some m /\
        d = fst (_consume_limit (clock (n + j)) (db w) (model_scope m)
                   (fst (limits_for ml m)) (snd (limits_for ml m))) /\
        vs !! j = Some d /\
        allowed d = true /\
        (forall i d', (i < j)%nat -> vs !! i = Some d' -> allowed d' = false) /\
        hdrs = Some (diagnostics d) /\
        retry = 0 /\
        evaluated w' = evaluated w ++ map model_scope (take (S j) cands) /\
        db w' = charged (clock (n + j)) (db w) (model_scope m)
  | None =>
      Forall (fun d => allowed d = false) vs /\
      evaluated w' = evaluated w ++ map model_scope cands /\
      db w' = db w /\
      hdrs = diagnostics <$> last vs /\
      (forall d, d ∈ vs -> retry_after d <= retry) /\
      (cands <> [] -> exists d, d ∈ vs /\ retry = retry_after d)
  end.
Proof.
  cbv zeta. unfold _pick_model.
  destruct (pick_loop_spec (_parse_model_limits env) allowed_models preferred None 0 w)
    as [(j & m & d & Hj & Hd & Hda & Hpre & ->) | (Hall & ->)].
  - exists j, d. split; [done|]. split.
    { rewrite verdicts_lookup, Hj in Hd. by injection Hd as <-. }
    split; [done|]. split; [done|]. split.
    { intros i d' Hi Hd'. apply (proj1 (Forall_lookup _ _) Hpre i d').
      by rewrite lookup_take_lt. }
    done.
  - split; [done|]. split; [done|]. split; [done|]. split.
    { by destruct (last _). }
    set (vs := verdicts _ _ _ _) in *.
    set (mx := running_max 0 (map retry_after vs)).
    assert (forall d, d ∈ vs -> retry_after d <= mx) as Hup.
    { intros d Hd. apply running_max_upper. apply list_elem_of_fmap. by exists d. }
    assert (forall d, d ∈ vs -> 1 <= retry_after d) as Hpos.
    { intros d Hd. pose proof (proj1 (Forall_forall _ _) Hall d Hd) as Hden.
      apply verdicts_elem in Hd as (i & m & _ & ->).
      by apply denied_retry_positive. }
    cbv zeta. fold mx. split.
    + intros d Hd. specialize (Hup d Hd). specialize (Hpos d Hd).
      destruct (Z.eqb_spec mx 0); lia.
    + intros Hne.
      destruct vs as [|d0 vs'] eqn:Evs.
      { exfalso. apply Hne. apply length_zero_iff_nil.
        rewrite <- (verdicts_length (_parse_model_limits env) (db w)
                      (length (evaluated w))). fold vs. by rewrite Evs. }
      assert (1 <= mx) as Hmx.
      { specialize (Hup d0 ltac:(apply elem_of_cons; by left)).
        specialize (Hpos d0 ltac:(apply elem_of_cons; by left)). lia. }
      destruct (Z.eqb_spec mx 0) as [|_]; [lia|].
      destruct (running_max_attained 0 (map retry_after (d0 :: vs'))) as [H0|Hin].
      { fold mx in H0. lia. }
      apply list_elem_of_fmap in Hin as (d & Hd1 & Hd2). exists d. done.
Qed.

(** C10: when no preferred model is in the allow-list (in particular when
    the preferred list is empty) [_pick_model] returns no model, no
    headers and a retry-after of 60, and evaluates nothing. Whenever it
    returns no model, its retry-after is the running maximum (from 0) of
    the retry-after values of the models tried, or 60 when that maximum
    is 0. *)
Theorem pick_model_nothing_tried env preferred (allowed_models : gset string) w :
  let ml := _parse_model_limits env in
  let cands := candidates preferred allowed_models in
  let vs := verdicts ml (db w) (length (evaluated w)) cands in
  let '((model, hdrs, retry), w') := _pick_model env preferred allowed_models w in
  (cands = [] -> model = None /\ hdrs = None /\ retry = 60 /\ w' = w) /\
  (preferred = [] -> cands = []) /\
  (model = None ->
   let mx := running_max 0 (map retry_after vs) in
   retry = if mx =? 0 then 60 else mx).
Proof.
  cbv zeta. unfold _pick_model.
  destruct (pick_loop_spec (_parse_model_limits env) allowed_models preferred None 0 w)
    as [(j & m & d & Hj & Hd & Hda & Hpre & ->) | (Hall & ->)].
  - split; [|split]; [|by intros ->|done].
    intros Hnil. by rewrite Hnil in Hj.
  - split; [|split]; [|by intros ->|done].
    intros ->. cbn. rewrite app_nil_r. by destruct w.
Qed.

End SelectionClaims.

(** ** The site-total gate of [do_POST] *)

Lemma model_scope_not_site_total m : model_scope m <> "site_total".
Proof. unfold model_scope. cbn. discriminate. Qed.

Section Gate.
Context `{Runtime}.

Lemma pick_model_log env preferred (allowed_models : gset string) w :
  exists models,
    evaluated (snd (_pick_model env preferred allowed_models w)) =
      evaluated w ++ map model_scope models.
Proof.
  unfold _pick_model.
  destruct (pick_loop_spec (_parse_model_limits env) allowed_models preferred None 0 w)
    as [(j & m & d & _ & _ & _ & _ & ->) | (_ & ->)]; cbn [snd evaluated]; eauto.
Qed.

Lemma rotate_log env variable (allowed_models : gset string) total_headers w :
  exists models,
    evaluated (snd (rotate env variable allowed_models total_headers w)) =
      evaluated w ++ map model_scope models.
Proof.
  unfold rotate.
  destruct (pick_model_log env
              (_split_csv (environ_get env variable default_rotation))
              allowed_models w) as [models Hm].
  destruct (_pick_model _ _ _ _) as [[[model rl] retry] w1]. cbn [snd] in Hm.
  exists models. by destruct model as [[|c m]|].
Qed.

Lemma choose_model_log env req body (allowed_models : gset string) total_headers w :
  exists models,
    evaluated (snd (choose_model env req body allowed_models total_headers w)) =
      evaluated w ++ map model_scope models.
Proof.
  unfold choose_model.
  destruct (String.eqb (path req) "/api/gemini"); [|apply rotate_log].
  destruct (body_get body "model" ≫= or_empty_strip) as [requested|];
    [|exists []; cbn; by rewrite app_nil_r].
  destruct (negb (String.eqb requested "") && _);
    [exists []; cbn; by rewrite app_nil_r|].
  destruct (negb (String.eqb requested "")); [|apply rotate_log].
  destruct (limits_for _ _) as [rpd rpm]. rewrite call_consume_limit_eq.
  exists [requested]. by destruct (negb (allowed _)).
Qed.

(** C6: for a request that gets as far as the quota checks (a served path,
    an API key, a JSON body, site limits that parse) with a positive site
    limit, [do_POST] evaluates the scope [site_total] first and once: every
    other evaluation it makes comes after it and is of a model scope
    [gemini:<model>], however many models the rotation tries. When the site
    check denies, the response is the 429 of that denial, with its
    retry-after and headers, nothing else is evaluated and the ledger is as
    it was: no model scope is charged. *)
Theorem site_total_gates_first env req w body total_rpd total_rpm :
  path req = "/api/gemini" \/ path req = "/api/flashcraft/generate_deck" ->
  str_strip (environ_get env "GEMINI_API_KEY" "") <> "" ->
  body_text req ≫= json_loads = Some body ->
  int_of_str (environ_get env "SITE_TOTAL_RPD_LIMIT" "0") = Some total_rpd ->
  int_of_str (environ_get env "SITE_TOTAL_RPM_LIMIT" "0") = Some total_rpm ->
  0 < total_rpd \/ 0 < total_rpm ->
  let d := fst (_consume_limit (clock (length (evaluated w))) (db w)
                  "site_total" total_rpd total_rpm) in
  let '(out, w') := do_POST env req w in
  (exists models,
      evaluated w' = evaluated w ++ "site_total" :: map model_scope models) /\
  (forall m, model_scope m <> "site_total") /\
  (allowed d = false ->
   out = TooManyRequests (retry_after d) (diagnostics d)
           "Site quota exceeded. Try again later." /\
   db w' = db w /\
   evaluated w' = evaluated w ++ ["site_total"]).
Proof.
  intros Hpath Hkey Hbody Hrpd Hrpm Hpos. cbv zeta. unfold do_POST.
  assert (negb (String.eqb (path req) "/api/gemini"
                || String.eqb (path req) "/api/flashcraft/generate_deck") = false)
    as ->.
  { apply negb_false_iff, orb_true_iff.
    destruct Hpath as [->| ->]; [left|right]; apply String.eqb_refl. }
  apply String.eqb_neq in Hkey. rewrite Hkey, Hbody, Hrpd, Hrpm.
  assert ((0 <? total_rpd) || (0 <? total_rpm) = true) as ->.
  { apply orb_true_iff. destruct Hpos; [left|right]; by apply Z.ltb_lt. }
  rewrite call_consume_limit_eq.
  set (c := _consume_limit _ _ _ _ _).
  destruct (allowed (fst c)) eqn:Ea; cbn [negb].
  - match goal with
    | |- context [choose_model ?e ?r ?b ?a ?t ?w0] =>
        destruct (choose_model_log e r b a t w0) as [models Hm];
        destruct (choose_model e r b a t w0) as [out w']
    end.
    cbn [snd evaluated] in Hm. split; [|split]; [| apply model_scope_not_site_total | done].
    exists models. rewrite Hm, <- app_assoc. done.
  - split; [|split]; [| apply model_scope_not_site_total |].
    + exists []. done.
    + intros _. cbn [db evaluated]. split; [done|]. split; [|done].
      subst c. by apply consume_limit_denied_ledger.
Qed.

End Gate.

(** ** Limit overrides *)

Lemma dict_get_elem {V} (k : string) (v : V) (d : list (string * V)) :
  NoDup (map fst d) -> (k, v) ∈ d -> dict_get k d = Some v.
Proof.
  induction d as [|[k0 v0] d IH]; intros Hnd Hin.
  - by apply elem_of_nil in Hin.
  - cbn [map fst] in Hnd. apply NoDup_cons in Hnd as [Hk0 Hnd].
    cbn [dict_get]. destruct (String.eqb_spec k0 k) as [->|Hne].
    + apply elem_of_cons in Hin as [Heq|Hin]; [congruence|].
      exfalso. apply Hk0. apply list_elem_of_fmap. by exists (k, v).
    + apply elem_of_cons in Hin as [Heq|Hin]; [congruence|]. by apply IH.
Qed.

Lemma dict_get_absent {V} (k : string) (d : list (string * V)) :
  k ∉ map fst d -> dict_get k d = None.
Proof.
  induction d as [|[k0 v0] d IH]; intros Hk; [done|].
  cbn [dict_get]. destruct (String.eqb_spec k0 k) as [->|Hne].
  - exfalso. apply Hk. cbn. apply elem_of_cons. by left.
  - apply IH. intros Hin. apply Hk. cbn. apply elem_of_cons. by right.
Qed.

Section Overrides.
Context `{Runtime}.

Lemma add_limit_entry limits k v :
  add_limit limits (k, v) =
    match limit_entry v with
    | Some p => <[k := p]> limits
    | None => limits
    end.
Proof.
  unfold add_limit, limit_entry. destruct v; try done.
  destruct (py_int (get_or_none "rpd" d)); [|done].
  by destruct (py_int (get_or_none "rpm" d)).
Qed.

(** The loop over the items of a dict: each key ends up with what its own
    value contributes. *)
Lemma fold_add_limit_lookup items (limits : gmap string (Z * Z)) k :
  NoDup (map fst items) ->
  fold_left add_limit items limits !! k =
    match dict_get k items ≫= limit_entry with
    | Some p => Some p
    | None => limits !! k
    end.
Proof.
  revert limits. induction items as [|[k0 v0] items IH]; intros limits Hnd; [done|].
  cbn [map fst] in Hnd. apply NoDup_cons in Hnd as [Hk0 Hnd].
  cbn [fold_left dict_get]. rewrite IH by done. rewrite add_limit_entry.
  destruct (String.eqb_spec k0 k) as [->|Hne].
  - rewrite dict_get_absent by done. cbn.
    destruct (limit_entry v0); [by rewrite lookup_insert_eq|done].
  - destruct (dict_get k items ≫= limit_entry); [done|].
    destruct (limit_entry v0); [by rewrite lookup_insert_ne|done].
Qed.

(** C9: [_parse_model_limits] always returns a map: whatever [json.loads]
    and [int] raise is caught. The map is empty when the text is no JSON
    and when it is JSON but no object. In an object, an item whose value is
    no object, or whose [rpd] or [rpm] does not convert to an int, leaves no
    entry, so the limits of that name are the built-in defaults; an item
    whose two fields convert gives the pair, negative numbers raised to 0. *)
Theorem parse_model_limits_tolerant env :
  let raw := str_strip (environ_get env "GEMINI_MODEL_LIMITS_JSON" "") in
  let limits := _parse_model_limits env in
  (json_loads raw = None -> limits = ∅) /\
  (forall data,
     json_loads raw = Some data -> (forall items, data <> PyDict items) ->
     limits = ∅) /\
  (forall k, limits !! k = None -> limits_for limits k = _default_model_limits k) /\
  (forall items k v,
     json_loads raw = Some (PyDict items) ->
     NoDup (map fst items) ->
     (k, v) ∈ items ->
     ((forall fields, v <> PyDict fields) \/
      (exists fields, v = PyDict fields /\
         (py_int (get_or_none "rpd" fields) = None \/
          py_int (get_or_none "rpm" fields) = None))) ->
     limits !! k = None /\ limits_for limits k = _default_model_limits k) /\
  (forall items k fields rpd_i rpm_i,
     raw <> "" ->
     json_loads raw = Some (PyDict items) ->
     NoDup (map fst items) ->
     (k, PyDict fields) ∈ items ->
     py_int (get_or_none "rpd" fields) = Some rpd_i ->
     py_int (get_or_none "rpm" fields) = Some rpm_i ->
     limits !! k = Some (Z.max 0 rpd_i, Z.max 0 rpm_i) /\
     limits_for limits k = (Z.max 0 rpd_i, Z.max 0 rpm_i)).
Proof.
  cbv zeta. unfold _parse_model_limits.
  set (raw := str_strip (environ_get env "GEMINI_MODEL_LIMITS_JSON" "")).
  split; [|split; [|split; [|split]]].
  - intros ->. by destruct (String.eqb raw "").
  - intros data -> Hno. destruct (String.eqb raw ""); [done|].
    destruct data; try done. by destruct (Hno d).
  - intros k Hk. unfold limits_for. by rewrite Hk.
  - intros items k v -> Hnd Hin Hbad.
    assert (limit_entry v = None) as Hentry.
    { destruct Hbad as [Hno | (fields & -> & [Hr|Hr])].
      - destruct v; try done. by destruct (Hno d).
      - unfold limit_entry. by rewrite Hr.
      - unfold limit_entry. rewrite Hr.
        destruct (py_int (get_or_none "rpd" fields)); reflexivity. }
    assert ((if String.eqb raw "" then ∅ else fold_left add_limit items ∅)
              !! k = (None : option (Z * Z))) as Hk.
    { destruct (String.eqb raw ""); [done|].
      rewrite fold_add_limit_lookup by done.
      rewrite (dict_get_elem k v) by done. cbn. by rewrite Hentry. }
    split; [done|]. unfold limits_for. by rewrite Hk.
  - intros items k fields rpd_i rpm_i Hraw -> Hnd Hin Hr Hm.
    apply String.eqb_neq in Hraw. rewrite Hraw.
    assert (fold_left add_limit items ∅ !! k = Some (Z.max 0 rpd_i, Z.max 0 rpm_i))
      as Hk.
    { rewrite fold_add_limit_lookup by done.
      rewrite (dict_get_elem k (PyDict fields)) by done. cbn. by rewrite Hr, Hm. }
    split; [done|]. unfold limits_for. by rewrite Hk.
Qed.

End Overrides.

(** ** Worked examples *)

Lemma site_total_gates_first_witness :
  let d := fst (_consume_limit (sample_clock 0) (db site_used_up) "site_total" 5 0) in
  fst (do_POST (H := sample_runtime) sample_environ sample_request site_used_up)
    = TooManyRequests (retry_after d) (diagnostics d)
        "Site quota exceeded. Try again later." /\
  db (snd (do_POST (H := sample_runtime) sample_environ sample_request site_used_up))
    = db site_used_up /\
  retry_after d = 39269.
Proof.
  cbv zeta.
  assert (str_strip (Runtime := sample_runtime)
            (environ_get sample_environ "GEMINI_API_KEY" "") <> "") as Hkey.
  { vm_compute. discriminate. }
  pose proof (site_total_gates_first (H := sample_runtime)
                sample_environ sample_request site_used_up (PyDict []) 5 0
                (or_intror eq_refl) Hkey eq_refl eq_refl eq_refl
                (or_introl eq_refl)) as Hgate.
  cbv zeta in Hgate.
  destruct (do_POST (H := sample_runtime) sample_environ sample_request site_used_up)
    as [out w'].
  destruct Hgate as (_ & _ & Hdenied).
  destruct (Hdenied eq_refl) as (Hout & Hdb & _).
  cbn [fst snd]. split; [exact Hout|]. split; [exact Hdb|].
  vm_compute. reflexivity.
Defined.

(** Fallback determinism: the first two models are at their minute limit,
    the third is admitted and the diagnostics are those of its scope. *)
Example pick_model_third :
  fst (_pick_model (H := sample_runtime) ∅ three_models
         (list_to_set three_models) busy)
  = (Some "gemini-x",
     Some [ ("X-RateLimit-Scope", "gemini:gemini-x");
            ("X-RateLimit-RPD-Limit", "20");
            ("X-RateLimit-RPD-Used", "1");
            ("X-RateLimit-RPM-Limit", "5");
            ("X-RateLimit-RPM-Used", "1") ],
     0).
Proof. vm_compute. reflexivity. Qed.

(** Fallback exhaustion: the three denials ask for 30, 5 and 45 seconds;
    the answer carries 45 and the headers of the third model. *)
Example pick_model_exhausted :
  map retry_after
    (verdicts (H := sample_runtime) ∅ (db busier) 0 three_models) = [30; 5; 45] /\
  fst (_pick_model (H := sample_runtime) ∅ three_models
         (list_to_set three_models) busier)
  = (None,
     Some [ ("X-RateLimit-Scope", "gemini:gemini-x");
            ("X-RateLimit-RPD-Limit", "20");
            ("X-RateLimit-RPD-Used", "0");
            ("X-RateLimit-RPM-Limit", "5");
            ("X-RateLimit-RPM-Used", "5") ],
     45) /\
  snd (_pick_model (H := sample_runtime) ∅ three_models
         (list_to_set three_models) busier)
  = {| db := db busier;
       evaluated := ["gemini:gemini-2.5-flash"; "gemini:gemini-3-flash";
                     "gemini:gemini-x"] |}.
Proof. vm_compute. auto. Qed.

(** A model that is not allowed is passed over without an evaluation. *)
Example pick_model_skips :
  snd (_pick_model (H := sample_runtime) ∅ three_models {["gemini-x"]} busy)
  = {| db := charged (sample_clock 0) (db busy) "gemini:gemini-x";
       evaluated := ["gemini:gemini-x"] |}.
Proof. vm_compute. reflexivity. Qed.

(** Overrides: of four items, the two whose fields convert are kept, with
    the negative daily limit raised to 0 and the float 2.5 cut to 2. *)
Example parse_model_limits_sample :
  map_to_list
    (_parse_model_limits (H := sample_runtime)
       {[ "GEMINI_MODEL_LIMITS_JSON" := "{limits}" ]})
  ≡ₚ [("a", (7, 5)); ("d", (0, 2))] /\
  _parse_model_limits (H := sample_runtime)
    {[ "GEMINI_MODEL_LIMITS_JSON" := "[1]" ]} = ∅ /\
  _parse_model_limits (H := sample_runtime)
    {[ "GEMINI_MODEL_LIMITS_JSON" := "{oops" ]} = ∅ /\
  limits_for
    (_parse_model_limits (H := sample_runtime)
       {[ "GEMINI_MODEL_LIMITS_JSON" := "{limits}" ]}) "gemma-3-1b" = (14400, 30).
Proof.
  split; [|split; [|split]]; vm_compute; reflexivity.
Qed.

(** The scenario of C7 at six readings of 2026-03-07, 13:05. *)
Lemma diagnostics_report_used_counts_witness :
  map allowed (fst (attempts six_readings empty_ledger "gemini:X" 20 5))
    = [true; true; true; true; true; false] /\
  map (fun d => dict_get "X-RateLimit-RPM-Used" (diagnostics d))
    (fst (attempts six_readings empty_ledger "gemini:X" 20 5))
    = [Some "1"; Some "2"; Some "3"; Some "4"; Some "5"; Some "5"].
Proof.
  destruct diagnostics_report_used_counts as [_ Hscenario].
  assert (Forall (fun r => strftime_Ymd (now r) = "2026-03-07") six_readings)
    as Hday by repeat constructor.
  assert (Forall (fun r => minute_of (time_at_bucket r) = 29548145) six_readings)
    as Hminute by repeat constructor.
  destruct (Hscenario "2026-03-07" 29548145 six_readings empty_ledger "gemini:X"
              eq_refl Hday Hminute eq_refl eq_refl) as (Hallowed & Hused & _).
  split; [exact Hallowed | exact Hused].
Defined.

(** The overrides of [sample_json_loads]: item [b] has no [rpd] and item [c]
    is a number, so both names keep the defaults; item [a] converts. *)
Lemma parse_model_limits_tolerant_witness :
  let limits := _parse_model_limits (H := sample_runtime) overrides_environ in
  limits !! "b" = None /\
  limits_for limits "c" = _default_model_limits "c" /\
  limits !! "a" = Some (7, 5).
Proof.
  cbv zeta.
  destruct (parse_model_limits_tolerant (H := sample_runtime) overrides_environ)
    as (_ & _ & _ & Hbad & Hgood).
  cbv zeta in Hbad, Hgood.
  set (items :=
         [ ("a", PyDict [("rpd", PyInt 7); ("rpm", PyStr "5")]);
           ("b", PyDict [("rpd", PyNone); ("rpm", PyInt 1)]);
           ("c", PyInt 3);
           ("d", PyDict [("rpd", PyInt (-4));
                         ("rpm", PyFloat (S754_finite false 5 (-1)))]) ]).
  assert (NoDup (map fst items)) as Hnd.
  { apply (bool_decide_unpack _). vm_compute. exact I. }
  split; [|split].
  - refine (proj1 (Hbad items "b" (PyDict [("rpd", PyNone); ("rpm", PyInt 1)])
                     eq_refl Hnd _ _)).
    + subst items. rewrite !elem_of_cons. auto.
    + right. eexists. split; [reflexivity|]. left. reflexivity.
  - refine (proj2 (Hbad items "c" (PyInt 3) eq_refl Hnd _ _)).
    + subst items. rewrite !elem_of_cons. auto.
    + left. intros fields. discriminate.
  - refine (proj1 (Hgood items "a" [("rpd", PyInt 7); ("rpm", PyStr "5")] 7 5
                     _ eq_refl Hnd _ eq_refl eq_refl)).
    + vm_compute. discriminate.
    + subst items. rewrite !elem_of_cons. auto.
Defined.

(** The selection of [pick_model_third], read through C5. *)
Lemma pick_model_first_fit_witness :
  exists j,
    candidates three_models (list_to_set three_models) !! j = Some "gemini-x" /\
    evaluated (snd (_pick_model (H := sample_runtime) ∅ three_models
                      (list_to_set three_models) busy))
      = map model_scope
          (take (S j) (candidates three_models (list_to_set three_models))).
Proof.
  pose proof (pick_model_first_fit (H := sample_runtime) ∅ three_models
                (list_to_set three_models) busy) as Hpick.
  cbv zeta in Hpick.
  destruct (_pick_model (H := sample_runtime) ∅ three_models
              (list_to_set three_models) busy) as [[[model hdrs] retry] w'] eqn:Epick.
  assert (model = Some "gemini-x") as ->.
  { apply (f_equal (fun x => fst (fst (fst x)))) in Epick. cbn [fst] in Epick.
    rewrite <- Epick. vm_compute. reflexivity. }
  destruct Hpick as (j & d & Hj & _ & _ & _ & _ & _ & _ & Hlog & _).
  exists j. split; [exact Hj | exact Hlog].
Defined.

(** No preferred model is allowed: nothing is evaluated, the answer is 60. *)
Lemma pick_model_nothing_tried_witness :
  _pick_model (H := sample_runtime) ∅ three_models {["gemma-3-1b"]} busy
    = ((None, None, 60), busy).
Proof.
  pose proof (pick_model_nothing_tried (H := sample_runtime) ∅ three_models
                {["gemma-3-1b"]} busy) as Hpick.
  cbv zeta in Hpick.
  destruct (_pick_model (H := sample_runtime) ∅ three_models {["gemma-3-1b"]} busy)
    as [[[model hdrs] retry] w'].
  destruct Hpick as (Hnone & _ & _).
  destruct Hnone as (-> & -> & -> & ->); [vm_compute; reflexivity | reflexivity].
Defined.

(** With both limits 0 an evaluation is admitted and still counted. *)
Lemma zero_limit_disables_check_witness :
  allowed (fst (_consume_limit sample_reading empty_ledger "site_total" 0 0)) = true /\
  day_counter (snd (_consume_limit sample_reading empty_ledger "site_total" 0 0))
    sample_reading "site_total" = 1 /\
  minute_counter (snd (_consume_limit sample_reading empty_ledger "site_total" 0 0))
    sample_reading "site_total" = 1.
Proof.
  destruct (zero_limit_disables_check sample_reading empty_ledger "site_total")
    as (_ & _ & Hfree & Hcounted).
  destruct (Hcounted 0 0 Hfree) as [Hday Hminute].
  split; [exact Hfree|]. split; [exact Hday | exact Hminute].
Defined.

(** * Further properties *)

(** ** The ledger under [_consume_limit] *)

Lemma charged_minute_pruned r db scope (m : Z) (s : string) :
  m < minute_of (time_at_bucket r) - 10 ->
  usage_minute (charged r db scope) !! (m, s) = None.
Proof.
  intros Hold. unfold charged. cbn.
  rewrite lookup_upsert_other by (intros [= ? ?]; lia).
  apply map_lookup_filter_None. right. intros c _. cbn. lia.
Qed.

Lemma charged_minute_absent r db scope (k : Z * string) :
  k <> (minute_of (time_at_bucket r), scope) ->
  usage_minute db !! k = None ->
  usage_minute (charged r db scope) !! k = None.
Proof.
  intros Hne Habs. unfold charged. cbn.
  rewrite lookup_upsert_other by done.
  apply map_lookup_filter_None. by left.
Qed.

(** X1: an evaluation of one scope does not touch what a later evaluation of
    another scope reads, as long as the clock has not gone back by more
    than ten minutes in between: the later decision is the one it would
    have been without the first evaluation. *)
Theorem consume_limit_scopes_independent r r' db scope scope' N M N' M' :
  scope <> scope' ->
  minute_of (time_at_bucket r) - 10 <= minute_of (time_at_bucket r') ->
  fst (_consume_limit r' (snd (_consume_limit r db scope N M)) scope' N' M')
    = fst (_consume_limit r' db scope' N' M').
Proof.
  intros Hne Hclock. rewrite !consume_limit_decision. f_equal.
  - unfold day_counter.
    destruct (allowed (fst (_consume_limit r db scope N M))) eqn:Ea.
    + rewrite consume_limit_allowed_ledger by done.
      rewrite charged_day_other by congruence. done.
    + by rewrite consume_limit_denied_ledger.
  - unfold minute_counter.
    destruct (allowed (fst (_consume_limit r db scope N M))) eqn:Ea.
    + rewrite consume_limit_allowed_ledger by done.
      rewrite charged_minute_other by (congruence || done). done.
    + by rewrite consume_limit_denied_ledger.
Qed.

Lemma consume_limit_scopes_independent_witness :
  fst (_consume_limit (sample_later 1)
         (snd (_consume_limit sample_reading empty_ledger "site_total" 5 0))
         "gemini:x" 20 5)
  = fst (_consume_limit (sample_later 1) empty_ledger "gemini:x" 20 5).
Proof.
  apply consume_limit_scopes_independent.
  - discriminate.
  - vm_compute. discriminate.
Defined.

(** X2: the cleanup of line 138 takes effect only with an admission. After
    an admitted evaluation at minute [m] no minute row older than [m - 10]
    is left, for any scope; every row from [m - 10] on is kept, and the
    row of the current minute is there. A denied evaluation removes
    nothing. Rows of the day table are never removed. *)
Theorem consume_limit_prunes_on_admission r db scope N M :
  let '(d, db') := _consume_limit r db scope N M in
  let m := minute_of (time_at_bucket r) in
  (if allowed d then
     (forall m0 s, m0 < m - 10 -> usage_minute db' !! (m0, s) = None) /\
     (forall m0 s, m - 10 <= m0 -> (m0, s) <> (m, scope) ->
        usage_minute db' !! (m0, s) = usage_minute db !! (m0, s)) /\
     is_Some (usage_minute db' !! (m, scope))
   else usage_minute db' = usage_minute db) /\
  (forall k, is_Some (usage_day db !! k) -> is_Some (usage_day db' !! k)).
Proof.
  rewrite consume_limit_cases. cbv zeta.
  destruct (daily_exhausted _ _); cbn [allowed]; [done|].
  destruct (minute_exhausted _ _); cbn [allowed]; [done|].
  split; [split; [|split]|].
  - intros m0 s Hold. by apply charged_minute_pruned.
  - intros m0 s Hnew Hne. by apply charged_minute_other.
  - unfold charged. cbn. unfold upsert.
    destruct (filter _ _ !! _); rewrite lookup_insert_eq; by eexists.
  - intros k [c Hc]. unfold charged. cbn. unfold upsert.
    destruct (usage_day db !! (strftime_Ymd (now r), scope)) eqn:E;
      (destruct (decide ((strftime_Ymd (now r), scope) = k)) as [<-|Hne];
       [rewrite lookup_insert_eq | rewrite lookup_insert_ne by done];
       by eexists).
Qed.

Lemma denied_retry_range r db scope N M :
  valid_time_of_day (now r) ->
  allowed (fst (_consume_limit r db scope N M)) = false ->
  1 <= retry_after (fst (_consume_limit r db scope N M)) <= 86400.
Proof.
  intros Hvalid. rewrite consume_limit_cases. cbv zeta.
  pose proof (seconds_until_next_midnight_range (now r) Hvalid) as Hmid.
  pose proof (minute_retry_range (time_at_retry r)) as Hmin.
  destruct (daily_exhausted _ _); cbn [fst allowed retry_after]; [intros _; lia|].
  destruct (minute_exhausted _ _); cbn [fst allowed retry_after]; [intros _; lia|].
  discriminate.
Qed.

(** X3: the retry-after of a decision is 0 exactly for an admission; for a
    denial it lies between 1 and 86400 seconds, whatever the limits and
    the ledger, when the time of day is a valid one. *)
Theorem retry_after_bounds r db scope N M :
  valid_time_of_day (now r) ->
  let d := fst (_consume_limit r db scope N M) in
  (allowed d = true <-> retry_after d = 0) /\
  (allowed d = false -> 1 <= retry_after d <= 86400).
Proof.
  intros Hvalid. cbv zeta. rewrite consume_limit_cases. cbv zeta.
  pose proof (seconds_until_next_midnight_range (now r) Hvalid) as Hmid.
  pose proof (minute_retry_range (time_at_retry r)) as Hmin.
  destruct (daily_exhausted _ _); cbn [fst allowed retry_after].
  { split; [split; [done|lia] | intros _; lia]. }
  destruct (minute_exhausted _ _); cbn [fst allowed retry_after].
  { split; [split; [done|lia] | intros _; lia]. }
  split; [done|discriminate].
Qed.

Lemma retry_after_bounds_witness :
  allowed (fst (_consume_limit sample_reading empty_ledger "gemini:x" 20 5)) = true /\
  retry_after (fst (_consume_limit sample_reading empty_ledger "gemini:x" 20 5)) = 0.
Proof.
  assert (valid_time_of_day (now sample_reading)) as Hvalid.
  { unfold valid_time_of_day. cbn. lia. }
  destruct (retry_after_bounds sample_reading empty_ledger "gemini:x" 20 5 Hvalid)
    as [Hzero _].
  assert (allowed (fst (_consume_limit sample_reading empty_ledger "gemini:x" 20 5))
          = true) as Ha by (vm_compute; reflexivity).
  split; [exact Ha | exact (proj1 Hzero Ha)].
Defined.

Lemma empty_ledger_positive : ledger_positive empty_ledger.
Proof. split; intros k c Hc; cbn in Hc; by rewrite lookup_empty in Hc. Qed.

Lemma upsert_positive {K} `{Countable K} (k : K) (m : gmap K Z) :
  (forall k0 c, m !! k0 = Some c -> 1 <= c) ->
  forall k0 c, upsert k m !! k0 = Some c -> 1 <= c.
Proof.
  intros Hpos k0 c. unfold upsert.
  destruct (m !! k) as [c0|] eqn:E; destruct (decide (k = k0)) as [->|Hne].
  - rewrite lookup_insert_eq. intros [= <-]. specialize (Hpos _ _ E). lia.
  - rewrite lookup_insert_ne by done. apply Hpos.
  - rewrite lookup_insert_eq. intros [= <-]. lia.
  - rewrite lookup_insert_ne by done. apply Hpos.
Qed.

Lemma upsert_grows {K} `{Countable K} (k k0 : K) (m : gmap K Z) c :
  m !! k0 = Some c -> exists c', upsert k m !! k0 = Some c' /\ c <= c'.
Proof.
  intros Hc. unfold upsert.
  destruct (m !! k) as [c0|] eqn:E; destruct (decide (k = k0)) as [->|Hne].
  - rewrite lookup_insert_eq. exists (c0 + 1). split; [done|].
    rewrite Hc in E. injection E as ->. lia.
  - rewrite lookup_insert_ne by done. exists c. split; [done|lia].
  - congruence.
  - rewrite lookup_insert_ne by done. exists c. split; [done|lia].
Qed.

(** X4: a ledger in which every stored count is at least 1 stays so under
    any evaluation, admitted or denied, and no count of the day table ever
    goes down. The two counters an evaluation reads from such a ledger,
    which are the used counts of its headers, are not negative. *)
Theorem consume_limit_keeps_counts_positive r db scope N M :
  ledger_positive db ->
  let '(d, db') := _consume_limit r db scope N M in
  ledger_positive db' /\
  (forall k c, usage_day db !! k = Some c ->
     exists c', usage_day db' !! k = Some c' /\ c <= c') /\
  0 <= day_counter db r scope /\ 0 <= minute_counter db r scope.
Proof.
  intros [Hday Hmin].
  assert (0 <= day_counter db r scope /\ 0 <= minute_counter db r scope) as Hnn.
  { unfold day_counter, minute_counter. split.
    - destruct (usage_day db !! _) eqn:E; cbn; [specialize (Hday _ _ E)|]; lia.
    - destruct (usage_minute db !! _) eqn:E; cbn; [specialize (Hmin _ _ E)|]; lia. }
  rewrite consume_limit_cases. cbv zeta.
  assert (forall k c, usage_day db !! k = Some c ->
            exists c', usage_day db !! k = Some c' /\ c <= c') as Hsame.
  { intros k c Hc. exists c. split; [done|lia]. }
  destruct (daily_exhausted _ _);
    [split; [by split | split; [exact Hsame | exact Hnn]]|].
  destruct (minute_exhausted _ _);
    [split; [by split | split; [exact Hsame | exact Hnn]]|].
  split; [|split; [|exact Hnn]].
  - split.
    + unfold charged. cbn. by apply upsert_positive.
    + unfold charged. cbn. apply upsert_positive.
      intros k c Hc. apply map_lookup_filter_Some in Hc as [Hc _]. by eapply Hmin.
  - intros k c Hc. unfold charged. cbn. by apply upsert_grows.
Qed.

Lemma consume_limit_keeps_counts_positive_witness :
  ledger_positive
    (snd (_consume_limit sample_reading empty_ledger "gemini:x" 20 5)).
Proof.
  pose proof (consume_limit_keeps_counts_positive sample_reading empty_ledger
                "gemini:x" 20 5 empty_ledger_positive) as Hkept.
  destruct (_consume_limit sample_reading empty_ledger "gemini:x" 20 5) as [d db'].
  exact (proj1 Hkept).
Defined.

(** One evaluation keeps the rows of its scope within positive limits. *)
Lemma consume_limit_day_within r db scope N M :
  0 < N ->
  (forall d c, usage_day db !! (d, scope) = Some c -> c <= N) ->
  forall d c,
    usage_day (snd (_consume_limit r db scope N M)) !! (d, scope) = Some c -> c <= N.
Proof.
  intros HN Hin d c. rewrite consume_limit_cases. cbv zeta.
  destruct (daily_exhausted _ _) eqn:Ed; cbn [snd]; [apply Hin|].
  destruct (minute_exhausted _ _); cbn [snd]; [apply Hin|].
  unfold daily_exhausted, day_counter in Ed.
  destruct (Z.ltb_spec 0 N); [|lia].
  destruct (Z.leb_spec N (count_of (usage_day db !! (strftime_Ymd (now r), scope))));
    [done|].
  unfold charged. cbn. unfold upsert.
  destruct (usage_day db !! (strftime_Ymd (now r), scope)) as [c0|] eqn:E;
    cbn [count_of] in *;
    (destruct (decide (strftime_Ymd (now r) = d)) as [<-|Hne];
     [rewrite lookup_insert_eq; intros [= <-]; lia
     |rewrite lookup_insert_ne by congruence; apply Hin]).
Qed.

Lemma consume_limit_minute_within r db scope N M :
  0 < M ->
  (forall m c, usage_minute db !! (m, scope) = Some c -> c <= M) ->
  forall m c,
    usage_minute (snd (_consume_limit r db scope N M)) !! (m, scope) = Some c ->
    c <= M.
Proof.
  intros HM Hin m c. rewrite consume_limit_cases. cbv zeta.
  destruct (daily_exhausted _ _); cbn [snd]; [apply Hin|].
  destruct (minute_exhausted _ _) eqn:Em; cbn [snd]; [apply Hin|].
  unfold minute_exhausted, minute_counter in Em.
  destruct (Z.ltb_spec 0 M); [|lia].
  destruct (Z.leb_spec M
              (count_of (usage_minute db !! (minute_of (time_at_bucket r), scope))));
    [done|].
  unfold charged. cbn. unfold upsert.
  rewrite lookup_pruned by lia.
  destruct (usage_minute db !! (minute_of (time_at_bucket r), scope)) as [c0|] eqn:E;
    cbn [count_of] in *;
    (destruct (decide (minute_of (time_at_bucket r) = m)) as [<-|Hne];
     [rewrite lookup_insert_eq; intros [= <-]; lia
     |rewrite lookup_insert_ne by congruence;
      intros Hc; apply map_lookup_filter_Some in Hc as [Hc _]; by eapply Hin]).
Qed.

(** X5: under a fixed limit pair the counters of a scope never pass a
    positive limit. If no day row of the scope is above [N > 0], none is
    after any run of evaluations, at whatever times; likewise for the
    minute rows and [M > 0]. *)
Theorem counters_stay_within_limits rs db scope N M :
  (0 < N ->
   (forall d c, usage_day db !! (d, scope) = Some c -> c <= N) ->
   forall d c,
     usage_day (snd (attempts rs db scope N M)) !! (d, scope) = Some c -> c <= N) /\
  (0 < M ->
   (forall m c, usage_minute db !! (m, scope) = Some c -> c <= M) ->
   forall m c,
     usage_minute (snd (attempts rs db scope N M)) !! (m, scope) = Some c -> c <= M).
Proof.
  split.
  - intros HN. revert db. induction rs as [|r rs IH]; intros db Hin; [done|].
    rewrite attempts_cons. cbn [snd]. apply IH.
    by apply consume_limit_day_within.
  - intros HM. revert db. induction rs as [|r rs IH]; intros db Hin; [done|].
    rewrite attempts_cons. cbn [snd]. apply IH.
    by apply consume_limit_minute_within.
Qed.

Lemma counters_stay_within_limits_witness :
  day_counter (snd (attempts six_readings empty_ledger "gemini:x" 3 0))
    sample_reading "gemini:x" <= 3.
Proof.
  destruct (counters_stay_within_limits six_readings empty_ledger "gemini:x" 3 0)
    as [Hday _].
  assert (0 < 3) as H3 by lia.
  assert (forall d c, usage_day empty_ledger !! (d, "gemini:x") = Some c -> c <= 3)
    as Hstart by (intros d c Hc; cbn in Hc; by rewrite lookup_empty in Hc).
  unfold day_counter.
  destruct (usage_day (snd (attempts six_readings empty_ledger "gemini:x" 3 0))
              !! (strftime_Ymd (now sample_reading), "gemini:x")) as [c|] eqn:E.
  - exact (Hday H3 Hstart _ c E).
  - cbn. lia.
Defined.

(** ** Window boundaries *)

Lemma attempts_app rs1 rs2 db scope N M :
  attempts (rs1 ++ rs2) db scope N M =
    (fst (attempts rs1 db scope N M)
       ++ fst (attempts rs2 (snd (attempts rs1 db scope N M)) scope N M),
     snd (attempts rs2 (snd (attempts rs1 db scope N M)) scope N M)).
Proof.
  revert db. induction rs1 as [|r rs1 IH]; intros db.
  - cbn. by destruct (attempts rs2 db scope N M).
  - cbn [app]. rewrite !attempts_cons. cbn [fst snd]. by rewrite IH.
Qed.

(** A run that stays under both limits is admitted throughout. *)
Lemma replay_all_admitted rs scope N M dc mc :
  (N <= 0 \/ dc + Z.of_nat (length rs) <= N) ->
  (M <= 0 \/ mc + Z.of_nat (length rs) <= M) ->
  Forall (fun d => allowed d = true) (replay rs scope N M dc mc).
Proof.
  revert dc mc. induction rs as [|r rs IH]; intros dc mc HN HM; [constructor|].
  cbn [length] in HN, HM.
  assert (daily_exhausted N dc = false) as Hd.
  { unfold daily_exhausted. destruct (Z.ltb_spec 0 N); [|done].
    destruct (Z.leb_spec N dc); [lia|done]. }
  assert (minute_exhausted M mc = false) as Hm.
  { unfold minute_exhausted. destruct (Z.ltb_spec 0 M); [|done].
    destruct (Z.leb_spec M mc); [lia|done]. }
  rewrite replay_admit by done. constructor; [done|].
  apply IH; lia.
Qed.

(** A run in one minute bucket leaves the absent rows of other minutes
    absent. *)
Lemma attempts_minute_absent minute rs db scope N M (k : Z * string) :
  Forall (fun r => minute_of (time_at_bucket r) = minute) rs ->
  k <> (minute, scope) ->
  usage_minute db !! k = None ->
  usage_minute (snd (attempts rs db scope N M)) !! k = None.
Proof.
  intros Hrs Hne. revert db. induction Hrs as [|r rs Hr Hrs IH]; intros db Habs;
    [done|].
  rewrite attempts_cons. cbn [snd]. apply IH.
  destruct (allowed (fst (_consume_limit r db scope N M))) eqn:Ea.
  - rewrite consume_limit_allowed_ledger by done.
    apply charged_minute_absent; [by rewrite Hr | done].
  - by rewrite consume_limit_denied_ledger.
Qed.

(** X6: the minute window is a fixed bucket, not a sliding one. On one day,
    up to [M] evaluations in one minute bucket followed by up to [M] in
    another, both buckets new to the scope, are all admitted when the
    daily limit leaves room for them: [2 M] admissions can follow each
    other as closely as the two buckets do. *)
Theorem minute_window_is_fixed scope N M day T1 T2 rs1 rs2 db :
  0 < M ->
  T1 <> T2 ->
  Forall (fun r => strftime_Ymd (now r) = day) (rs1 ++ rs2) ->
  Forall (fun r => minute_of (time_at_bucket r) = T1) rs1 ->
  Forall (fun r => minute_of (time_at_bucket r) = T2) rs2 ->
  Z.of_nat (length rs1) <= M ->
  Z.of_nat (length rs2) <= M ->
  N <= 0 \/ Z.of_nat (length rs1 + length rs2) <= N ->
  usage_day db !! (day, scope) = None ->
  usage_minute db !! (T1, scope) = None ->
  usage_minute db !! (T2, scope) = None ->
  Forall (fun d => allowed d = true) (fst (attempts (rs1 ++ rs2) db scope N M)).
Proof.
  intros HM HT Hday H1 H2 Hl1 Hl2 HN Hfd Hf1 Hf2.
  apply Forall_app in Hday as [Hday1 Hday2].
  rewrite attempts_app. cbn [fst]. apply Forall_app.
  assert (Forall (fun d => allowed d = true) (fst (attempts rs1 db scope N M)))
    as Hfirst.
  { rewrite (attempts_replay day T1) by done. rewrite Hfd, Hf1. cbn [count_of].
    apply replay_all_admitted; lia. }
  split; [exact Hfirst|].
  rewrite (attempts_replay day T2) by done.
  rewrite (attempts_day_count day) by done. rewrite Hfd. cbn [count_of].
  rewrite (attempts_minute_absent T1) by (congruence || done). cbn [count_of].
  assert (admissions (fst (attempts rs1 db scope N M)) <= Z.of_nat (length rs1))
    as Hadm.
  { unfold admissions. pose proof (List.filter_length_le allowed
      (fst (attempts rs1 db scope N M))) as Hle.
    assert (length (fst (attempts rs1 db scope N M)) = length rs1) as Hlen.
    { clear. revert db. induction rs1 as [|r rs1 IH]; intros db; [done|].
      rewrite attempts_cons. cbn [fst length]. by rewrite IH. }
    lia. }
  apply replay_all_admitted; lia.
Qed.

(** Five evaluations at 13:05 and five at 13:06 under limits (20, 5). *)
Lemma minute_window_is_fixed_witness :
  Forall (fun d => allowed d = true)
    (fst (attempts
            (map (fun s => reading_at 13 5 s) [50; 52; 54; 56; 58]
             ++ map (fun s => reading_at 13 6 s) [0; 1; 2; 3; 4])
            empty_ledger "gemini:x" 20 5)).
Proof.
  apply (minute_window_is_fixed "gemini:x" 20 5 "2026-03-07" 29548145 29548146).
  - lia.
  - discriminate.
  - repeat constructor.
  - repeat constructor.
  - repeat constructor.
  - cbn. lia.
  - cbn. lia.
  - right. cbn. lia.
  - reflexivity.
  - reflexivity.
  - reflexivity.
Defined.

(** ** Selection and routing *)

Section Routing.
Context `{Runtime}.

Lemma split_csv_nonempty value x : x ∈ _split_csv value -> x <> "".
Proof.
  unfold _split_csv. intros Hx.
  apply list_elem_of_fmap in Hx as (v & -> & Hv).
  apply list_elem_of_In in Hv. apply List.filter_In in Hv as [_ Hv].
  apply andb_true_iff in Hv as [_ Hv]. apply negb_true_iff in Hv.
  by apply String.eqb_neq.
Qed.

Lemma candidates_elem m preferred (allowed_models : gset string) :
  m ∈ candidates preferred allowed_models -> m ∈ preferred /\ m ∈ allowed_models.
Proof.
  unfold candidates. intros Hm.
  apply list_elem_of_In in Hm. apply List.filter_In in Hm as [Hin Hok].
  apply bool_decide_eq_true in Hok. split; [by apply list_elem_of_In | done].
Qed.

(** [_pick_model], by what the caller sees. *)
Lemma pick_model_result env preferred (allowed_models : gset string) w :
  let '((model, hdrs, retry), w') := _pick_model env preferred allowed_models w in
  match model with
  | Some m =>
      m ∈ preferred /\ m ∈ allowed_models /\ retry = 0 /\
      exists rl, hdrs = Some rl /\ just_charged env m rl w'
  | None => db w' = db w /\ 1 <= retry
  end.
Proof.
  unfold _pick_model.
  destruct (pick_loop_spec (_parse_model_limits env) allowed_models preferred None 0 w)
    as [(j & m & d & Hj & Hd & Hda & Hpre & ->) | (Hall & ->)].
  - destruct (candidates_elem m preferred allowed_models) as [Hp Ha].
    { apply list_elem_of_lookup. by exists j. }
    split; [done|]. split; [done|]. split; [done|].
    exists (diagnostics d). split; [done|].
    exists {| db := db w;
              evaluated := evaluated w
                ++ map model_scope (take j (candidates preferred allowed_models)) |}, d.
    rewrite verdicts_lookup, Hj in Hd. injection Hd as Hd. unfold verdict in Hd.
    split; [|done].
    rewrite call_consume_limit_eq. cbn [db evaluated].
    rewrite length_app, length_map, length_take.
    assert ((j < length (candidates preferred allowed_models))%nat) as Hlt
      by by eapply lookup_lt_Some.
    rewrite Nat.min_l by lia. rewrite Hd. f_equal.
    rewrite consume_limit_allowed_ledger by by rewrite Hd.
    rewrite (take_S_r _ _ _ Hj), map_app, app_assoc. done.
  - split; [done|]. cbv zeta.
    pose proof (running_max_ge_start 0
      (map retry_after (verdicts (_parse_model_limits env) (db w)
         (length (evaluated w)) (candidates preferred allowed_models)))) as Hge.
    destruct (Z.eqb_spec (running_max 0 (map retry_after
      (verdicts (_parse_model_limits env) (db w) (length (evaluated w))
         (candidates preferred allowed_models)))) 0); lia.
Qed.

(** X7: [_pick_model] never returns a model outside the allow-list or the
    preferred list. With a model it returns a retry-after of 0 and the
    headers of the admitted evaluation of that model, which is the one
    evaluation that changed the ledger; without a model the ledger is as
    it was and the retry-after is at least 1, and at most 86400 when the
    clock gives valid times of day. *)
Theorem pick_model_safe env preferred (allowed_models : gset string) w :
  let '((model, hdrs, retry), w') := _pick_model env preferred allowed_models w in
  match model with
  | Some m =>
      m ∈ preferred /\ m ∈ allowed_models /\ retry = 0 /\
      exists w0 d,
        call_consume_limit w0 (model_scope m)
          (fst (limits_for (_parse_model_limits env) m))
          (snd (limits_for (_parse_model_limits env) m)) = (d, w') /\
        allowed d = true /\ hdrs = Some (diagnostics d) /\ db w0 = db w
  | None =>
      db w' = db w /\ 1 <= retry /\
      ((forall n, valid_time_of_day (now (clock n))) -> retry <= 86400)
  end.
Proof.
  unfold _pick_model.
  destruct (pick_loop_spec (_parse_model_limits env) allowed_models preferred None 0 w)
    as [(j & m & d & Hj & Hd & Hda & Hpre & ->) | (Hall & ->)].
  - destruct (candidates_elem m preferred allowed_models) as [Hp Ha].
    { apply list_elem_of_lookup. by exists j. }
    split; [done|]. split; [done|]. split; [done|].
    exists {| db := db w;
              evaluated := evaluated w
                ++ map model_scope (take j (candidates preferred allowed_models)) |}, d.
    rewrite verdicts_lookup, Hj in Hd. injection Hd as Hd. unfold verdict in Hd.
    split; [|done].
    rewrite call_consume_limit_eq. cbn [db evaluated].
    rewrite length_app, length_map, length_take.
    assert ((j < length (candidates preferred allowed_models))%nat) as Hlt
      by by eapply lookup_lt_Some.
    rewrite Nat.min_l by lia. rewrite Hd. f_equal.
    rewrite consume_limit_allowed_ledger by by rewrite Hd.
    rewrite (take_S_r _ _ _ Hj), map_app, app_assoc. done.
  - split; [done|]. cbv zeta.
    set (vs := verdicts _ _ _ _) in *.
    pose proof (running_max_ge_start 0 (map retry_after vs)) as Hge.
    split; [destruct (Z.eqb_spec (running_max 0 (map retry_after vs)) 0); lia|].
    intros Hvalid.
    destruct (Z.eqb_spec (running_max 0 (map retry_after vs)) 0); [lia|].
    destruct (running_max_attained 0 (map retry_after vs)) as [H0|Hin]; [lia|].
    apply list_elem_of_fmap in Hin as (d & Hd1 & Hd2). rewrite Hd1.
    pose proof (proj1 (Forall_forall _ _) Hall d Hd2) as Hden.
    apply verdicts_elem in Hd2 as (i & m & _ & ->). unfold verdict in *.
    by apply denied_retry_range.
Qed.

End Routing.

Section Outcomes.
Context `{Runtime}.

Lemma rotate_result env variable (allowed_models : gset string) total_headers w :
  let '(out, w') := rotate env variable allowed_models total_headers w in
  match out with
  | Forward m th rl =>
      th = total_headers /\ m <> "" /\ m ∈ allowed_models /\ just_charged env m rl w'
  | TooManyRequests retry _ _ => 1 <= retry /\ db w' = db w
  | _ => False
  end.
Proof.
  unfold rotate.
  pose proof (pick_model_result env
                (_split_csv (environ_get env variable default_rotation))
                allowed_models w) as Hpick.
  destruct (_pick_model _ _ _ _) as [[[model rl] retry] w1].
  destruct model as [m|].
  - destruct Hpick as (Hpref & Hallow & -> & rl0 & -> & Hcharged).
    pose proof (split_csv_nonempty _ _ Hpref) as Hne.
    destruct m as [|c m]; [done|]. cbn [default]. done.
  - destruct Hpick as [Hdb Hretry]. done.
Qed.

Lemma choose_model_result env req body (allowed_models : gset string)
    total_headers w :
  let '(out, w') := choose_model env req body allowed_models total_headers w in
  match out with
  | Forward m th rl =>
      th = total_headers /\ m <> "" /\ m ∈ allowed_models /\ just_charged env m rl w'
  | TooManyRequests retry _ _ => 1 <= retry /\ db w' = db w
  | JsonResponse status _ => status = 400 /\ w' = w
  | Uncaught => w' = w
  end.
Proof.
  unfold choose_model.
  destruct (String.eqb (path req) "/api/gemini");
    [|pose proof (rotate_result env "GEMINI_FLASHCRAFT_MODELS" allowed_models
                    total_headers w) as Hr;
      destruct (rotate _ _ _ _ _) as [[] w']; done].
  destruct (body_get body "model" ≫= or_empty_strip) as [requested|]; [|done].
  destruct (String.eqb_spec requested "") as [->|Hne]; cbn [negb andb].
  { pose proof (rotate_result env "GEMINI_MARKCRAFT_MODELS" allowed_models
                  total_headers w) as Hr.
    destruct (rotate _ _ _ _ _) as [[] w']; done. }
  destruct (bool_decide (requested ∈ allowed_models)) eqn:Hin; cbn [negb]; [|done].
  apply bool_decide_eq_true in Hin.
  pose proof (call_consume_limit_eq w (model_scope requested)
                (fst (limits_for (_parse_model_limits env) requested))
                (snd (limits_for (_parse_model_limits env) requested))) as Hcall.
  destruct (limits_for (_parse_model_limits env) requested) as [rpd rpm] eqn:El.
  cbn [fst snd] in Hcall. rewrite Hcall.
  destruct (allowed (fst (_consume_limit _ _ _ _ _))) eqn:Ea; cbn [negb].
  - split; [done|]. split; [done|]. split; [done|].
    exists w, (fst (_consume_limit (clock (length (evaluated w))) (db w)
                    (model_scope requested) rpd rpm)).
    rewrite El. cbn [fst snd]. done.
  - split; [by apply denied_retry_positive|]. cbn [db].
    by apply consume_limit_denied_ledger.
Qed.

(** X8: [do_POST] forwards a request only to a non-empty model of the
    allow-list, and only straight after an admitted evaluation of that
    model's own scope under the limits configured for it; the rate-limit
    headers it keeps for the response are those of that evaluation. The
    allow-list is never empty. *)
Theorem forward_only_when_charged env req w :
  let '(out, w') := do_POST env req w in
  (forall m total_headers rl_headers,
     out = Forward m total_headers rl_headers ->
     m <> "" /\ m ∈ allow_list env /\
     exists w0 d,
       call_consume_limit w0 (model_scope m)
         (fst (limits_for (_parse_model_limits env) m))
         (snd (limits_for (_parse_model_limits env) m)) = (d, w') /\
       allowed d = true /\
       rl_headers = diagnostics d) /\
  allow_list env <> ∅.
Proof.
  assert (allow_list env <> ∅) as Hnonempty.
  { unfold allow_list. cbv zeta. case_bool_decide as He; [|done].
    intros Hs. assert ("gemini-2.5-flash" ∈ (∅ : gset string)) as Hin
      by (rewrite <- Hs; by apply elem_of_singleton).
    by apply not_elem_of_empty in Hin. }
  unfold do_POST.
  destruct (negb _); [split; [intros; discriminate | done]|].
  destruct (String.eqb _ ""); [split; [intros; discriminate | done]|].
  destruct (body_text req ≫= json_loads) as [body|];
    [|split; [intros; discriminate | done]].
  fold (allow_list env).
  destruct (int_of_str _) as [total_rpd|]; [|split; [intros; discriminate | done]].
  destruct (int_of_str _) as [total_rpm|]; [|split; [intros; discriminate | done]].
  destruct ((0 <? total_rpd) || (0 <? total_rpm)).
  - rewrite call_consume_limit_eq.
    destruct (negb _); [split; [intros; discriminate | done]|].
    match goal with
    | |- context [choose_model ?e ?r ?b ?a ?t ?w0] =>
        pose proof (choose_model_result e r b a t w0) as Hc;
        destruct (choose_model e r b a t w0) as [out w']
    end.
    split; [|done]. intros m th rl ->. destruct Hc as (_ & Hne & Hin & Hch). done.
  - match goal with
    | |- context [choose_model ?e ?r ?b ?a ?t ?w0] =>
        pose proof (choose_model_result e r b a t w0) as Hc;
        destruct (choose_model e r b a t w0) as [out w']
    end.
    split; [|done]. intros m th rl ->. destruct Hc as (_ & Hne & Hin & Hch). done.
Qed.



End Outcomes.

Section SiteUnit.
Context `{Runtime}.


End SiteUnit.

(** X11: when a model scope was evaluated, the merged headers
    [{**total_headers, **rl_headers}] are exactly the headers of the model
    scope, in their order: the site's five values are all overwritten, so
    the diagnostics of [site_total] reach the caller only with the site's
    own denial. *)
Theorem merged_headers_are_the_models r1 db1 scope1 N1 M1 r2 db2 scope2 N2 M2 :
  let site := fst (_consume_limit r1 db1 scope1 N1 M1) in
  let model := fst (_consume_limit r2 db2 scope2 N2 M2) in
  dict_merge (diagnostics site) (diagnostics model) = diagnostics model /\
  dict_merge [] (diagnostics model) = diagnostics model.
Proof.
  cbv zeta. rewrite !consume_limit_decision. unfold decision_at.
  repeat match goal with
         | |- context [if ?b then _ else _] => destruct b
         end; split; reflexivity.
Qed.

(** ** Limits in use *)

Section LimitsInUse.
Context `{Runtime}.

Lemma limit_entry_nonnegative v p :
  limit_entry v = Some p -> 0 <= fst p /\ 0 <= snd p.
Proof.
  unfold limit_entry. destruct v; try done.
  destruct (py_int (get_or_none "rpd" d)); [|done].
  destruct (py_int (get_or_none "rpm" d)); [|done].
  intros [= <-]. cbn. lia.
Qed.

(** Where the entries of the loop's result come from. *)
Lemma fold_add_limit_origin items (limits : gmap string (Z * Z)) k p :
  fold_left add_limit items limits !! k = Some p ->
  limits !! k = Some p \/ exists v, (k, v) ∈ items /\ limit_entry v = Some p.
Proof.
  revert limits. induction items as [|[k0 v0] items IH]; intros limits Hk;
    [by left|].
  cbn [fold_left] in Hk. apply IH in Hk as [Hk|(v & Hv & He)].
  - rewrite add_limit_entry in Hk. destruct (limit_entry v0) as [p0|] eqn:E0.
    + destruct (decide (k0 = k)) as [->|Hne].
      * rewrite lookup_insert_eq in Hk. injection Hk as ->.
        right. exists v0. split; [apply elem_of_cons; by left | done].
      * rewrite lookup_insert_ne in Hk by done. by left.
    + by left.
  - right. exists v. split; [apply elem_of_cons; by right | done].
Qed.

Lemma parse_model_limits_origin env k p :
  _parse_model_limits env !! k = Some p ->
  exists items v,
    json_loads (str_strip (environ_get env "GEMINI_MODEL_LIMITS_JSON" ""))
      = Some (PyDict items) /\
    (k, v) ∈ items /\ limit_entry v = Some p.
Proof.
  unfold _parse_model_limits.
  destruct (String.eqb _ ""); [by rewrite lookup_empty|].
  destruct (json_loads _) as [data|]; [|by rewrite lookup_empty].
  destruct data; try by rewrite lookup_empty.
  intros Hk. apply fold_add_limit_origin in Hk as [Hk|(v & Hv & He)].
  - by rewrite lookup_empty in Hk.
  - by exists d, v.
Qed.

(** X12: an override exists only for a name that is a key of the JSON
    object of [GEMINI_MODEL_LIMITS_JSON], and only with the pair one of the
    items under that key yields: the configuration cannot set limits for a
    name it does not mention. *)
Theorem overrides_come_from_items env k rpd rpm :
  _parse_model_limits env !! k = Some (rpd, rpm) ->
  exists items fields rpd_i rpm_i,
    json_loads (str_strip (environ_get env "GEMINI_MODEL_LIMITS_JSON" ""))
      = Some (PyDict items) /\
    (k, PyDict fields) ∈ items /\
    py_int (get_or_none "rpd" fields) = Some rpd_i /\
    py_int (get_or_none "rpm" fields) = Some rpm_i /\
    rpd = Z.max 0 rpd_i /\ rpm = Z.max 0 rpm_i.
Proof.
  intros Hk. apply parse_model_limits_origin in Hk as (items & v & Hj & Hv & He).
  unfold limit_entry in He. destruct v; try done.
  destruct (py_int (get_or_none "rpd" d)) as [rpd_i|] eqn:Er; [|done].
  destruct (py_int (get_or_none "rpm" d)) as [rpm_i|] eqn:Em; [|done].
  injection He as <- <-. by exists items, d, rpd_i, rpm_i.
Qed.

(** X13: the limit pair in use for a model, override or default, is never
    negative. Without an override it is one of the built-in pairs, all of
    them positive with the minute limit not above the daily one; a model
    whose name starts with [gemma-3-] gets (14400, 30). *)
Theorem limits_in_use_are_sane env model :
  let limits := _parse_model_limits env in
  let '(rpd, rpm) := limits_for limits model in
  0 <= rpd /\ 0 <= rpm /\
  (limits !! model = None ->
   (rpd, rpm) = _default_model_limits model /\
   0 < rpm <= rpd /\
   ((rpd, rpm) = (20, 5) \/ (rpd, rpm) = (20, 10) \/ (rpd, rpm) = (14400, 30))) /\
  (String.prefix "gemma-3-" model = true ->
   _default_model_limits model = (14400, 30)).
Proof.
  cbv zeta.
  assert (String.prefix "gemma-3-" model = true ->
          _default_model_limits model = (14400, 30)) as Hgemma.
  { intros Hp. unfold _default_model_limits.
    destruct (String.eqb_spec model "gemini-2.5-flash") as [->|_]; [discriminate Hp|].
    destruct (String.eqb_spec model "gemini-2.5-flash-lite") as [->|_];
      [discriminate Hp|].
    destruct (String.eqb_spec model "gemini-3-flash") as [->|_]; [discriminate Hp|].
    by rewrite Hp. }
  assert (let '(rpd, rpm) := _default_model_limits model in
          0 < rpm <= rpd /\
          ((rpd, rpm) = (20, 5) \/ (rpd, rpm) = (20, 10) \/ (rpd, rpm) = (14400, 30)))
    as Hdefault.
  { unfold _default_model_limits.
    repeat match goal with
           | |- context [if ?b then _ else _] => destruct b
           end; (split; [lia|auto]). }
  unfold limits_for.
  destruct (_parse_model_limits env !! model) as [[rpd rpm]|] eqn:E.
  - apply parse_model_limits_origin in E as (items & v & _ & _ & He).
    apply limit_entry_nonnegative in He as [H1 H2]. cbn in H1, H2.
    split; [done|]. split; [done|]. split; [discriminate|done].
  - destruct (_default_model_limits model) as [rpd rpm].
    destruct Hdefault as [Hpos Hcases].
    split; [lia|]. split; [lia|]. split; [done|done].
Qed.

End LimitsInUse.

Lemma overrides_come_from_items_witness :
  exists items fields,
    sample_json_loads "{limits}" = Some (PyDict items) /\
    ("d", PyDict fields) ∈ items /\
    py_int (H := sample_runtime) (get_or_none "rpd" fields) = Some (-4).
Proof.
  assert (_parse_model_limits (H := sample_runtime) overrides_environ !! "d"
          = Some (0, 2)) as Hd by (vm_compute; reflexivity).
  destruct (overrides_come_from_items (H := sample_runtime) overrides_environ
              "d" 0 2 Hd) as (items & fields & rpd_i & rpm_i & Hj & Hin & Hr & _).
  exists items, fields. split; [exact Hj|]. split; [exact Hin|].
  assert (items =
            [ ("a", PyDict [("rpd", PyInt 7); ("rpm", PyStr "5")]);
              ("b", PyDict [("rpd", PyNone); ("rpm", PyInt 1)]);
              ("c", PyInt 3);
              ("d", PyDict [("rpd", PyInt (-4));
                            ("rpm", PyFloat (S754_finite false 5 (-1)))]) ]) as ->.
  { vm_compute in Hj. by injection Hj as <-. }
  rewrite !elem_of_cons in Hin.
  destruct Hin as [Hin|[Hin|[Hin|[Hin|Hin]]]]; try discriminate Hin.
  - injection Hin as ->. reflexivity.
  - by apply elem_of_nil in Hin.
Defined.

(** ** Strings *)

Lemma str_app_cons x (a b : string) : String x a +:+ b = String x (a +:+ b).
Proof. reflexivity. Qed.

Lemma str_app_nil_l (b : string) : "" +:+ b = b.
Proof. reflexivity. Qed.

Lemma str_app_assoc (a b c : string) : (a +:+ b) +:+ c = a +:+ (b +:+ c).
Proof.
  induction a as [|x a IH]; [done|]. rewrite !str_app_cons. f_equal. exact IH.
Qed.

Lemma str_app_nil_r (a : string) : a +:+ "" = a.
Proof. induction a as [|x a IH]; [done|]. rewrite str_app_cons. f_equal. exact IH. Qed.

Lemma str_length_app (a b : string) :
  String.length (a +:+ b) = (String.length a + String.length b)%nat.
Proof.
  induction a as [|x a IH]; [done|]. rewrite str_app_cons. cbn. f_equal. exact IH.
Qed.

Lemma find_char_app_none c (a b : string) :
  find_char c (a +:+ b) = None <-> find_char c a = None /\ find_char c b = None.
Proof.
  induction a as [|x a IH]; [rewrite str_app_nil_l; cbn; intuition|].
  rewrite str_app_cons. cbn.
  destruct (Ascii.eqb x c); [intuition discriminate|].
  rewrite !fmap_None. exact IH.
Qed.

Lemma find_char_first c (pre rest : string) :
  find_char c pre = None ->
  find_char c (pre +:+ String c rest) = Some (String.length pre).
Proof.
  induction pre as [|x pre IH]; [rewrite str_app_nil_l|rewrite str_app_cons]; cbn.
  - by rewrite Ascii.eqb_refl.
  - destruct (Ascii.eqb x c); [done|].
    destruct (find_char c pre) eqn:E; [done|]. intros _. by rewrite IH.
Qed.

Lemma find_char_split c (s : string) n :
  find_char c s = Some n ->
  exists pre rest,
    s = pre +:+ String c rest /\ String.length pre = n /\ find_char c pre = None.
Proof.
  revert n. induction s as [|x s IH]; intros n; cbn; [done|].
  destruct (Ascii.eqb_spec x c) as [->|Hne].
  - intros [= <-]. by exists "", s.
  - destruct (find_char c s) as [k|] eqn:E; [|done]. cbn. intros [= <-].
    destruct (IH k eq_refl) as (pre & rest & -> & <- & Hpre).
    exists (String x pre), rest. rewrite str_app_cons. cbn.
    split; [done|]. split; [done|].
    apply Ascii.eqb_neq in Hne. by rewrite Hne, Hpre.
Qed.

Lemma drop_chars_app (pre s : string) : drop_chars (String.length pre) (pre +:+ s) = s.
Proof.
  induction pre as [|x pre IH]; [rewrite str_app_nil_l; by destruct s|].
  rewrite str_app_cons. cbn. exact IH.
Qed.

Lemma substring_middle (pre mid post : string) :
  substring (String.length pre) (String.length mid) (pre +:+ (mid +:+ post)) = mid.
Proof.
  induction pre as [|x pre IH]; [|rewrite str_app_cons; cbn; exact IH].
  rewrite str_app_nil_l.
  induction mid as [|y mid IHm]; [rewrite str_app_nil_l; by destruct post|].
  rewrite str_app_cons. cbn. f_equal. exact IHm.
Qed.

(** ** [_split_csv] *)

Lemma split_go_nonempty sep cur s : split_go sep cur s <> [].
Proof.
  revert cur. induction s as [|c s IH]; intros cur; cbn; [done|].
  destruct (Ascii.eqb c sep); [done|apply IH].
Qed.

Lemma concat_cons sep (x : string) (l : list string) :
  l <> [] -> String.concat sep (x :: l) = x +:+ sep +:+ String.concat sep l.
Proof. by destruct l. Qed.

Lemma split_go_concat sep cur s :
  String.concat (String sep "") (split_go sep cur s) = cur +:+ s.
Proof.
  revert cur. induction s as [|c s IH]; intros cur; cbn [split_go].
  - cbn. by rewrite str_app_nil_r.
  - destruct (Ascii.eqb_spec c sep) as [->|Hne].
    + rewrite concat_cons by apply split_go_nonempty.
      by rewrite IH, str_app_nil_l, str_app_cons, str_app_nil_l.
    + by rewrite IH, str_app_assoc, str_app_cons, str_app_nil_l.
Qed.

Lemma split_go_no_sep sep cur s :
  find_char sep cur = None ->
  Forall (fun v => find_char sep v = None) (split_go sep cur s).
Proof.
  revert cur. induction s as [|c s IH]; intros cur Hcur; cbn [split_go].
  - by constructor.
  - destruct (Ascii.eqb_spec c sep) as [->|Hne].
    + constructor; [done|]. by apply IH.
    + apply IH. apply find_char_app_none. split; [done|].
      cbn. apply Ascii.eqb_neq in Hne. by rewrite Hne.
Qed.

Section Csv.
Context `{Runtime}.

(** X14: [_split_csv] cuts its value at the commas, so that the fields hold
    no comma and give the value back when joined by commas, drops the
    empty fields and the fields that are empty once stripped, and returns
    the others stripped, in order. No item it returns is empty, and an
    empty value gives no item at all. *)
Theorem split_csv_fields value :
  String.concat "," (split "," value) = value /\
  Forall (fun v => find_char "," v = None) (split "," value) /\
  _split_csv value =
    map str_strip
      (List.filter (fun v => bool_decide (v <> "" /\ str_strip v <> ""))
         (split "," value)) /\
  (forall x, x ∈ _split_csv value -> x <> "") /\
  _split_csv "" = [].
Proof.
  split; [apply (split_go_concat "," "" value)|].
  split; [by apply split_go_no_sep|].
  split; [|split; [apply split_csv_nonempty | reflexivity]].
  unfold _split_csv. f_equal. apply List.filter_ext. intros v.
  destruct (String.eqb_spec v ""), (String.eqb_spec (str_strip v) ""); cbn;
    symmetry; (by apply bool_decide_eq_true_2) || (apply bool_decide_eq_false_2; tauto).
Qed.

End Csv.

(** ** [_extract_json_object] *)

Lemma brace_depth_app (a b : string) :
  brace_depth (a +:+ b) = brace_depth a + brace_depth b.
Proof.
  induction a as [|x a IH]; [rewrite str_app_nil_l; cbn; lia|].
  rewrite str_app_cons. cbn [brace_depth]. rewrite IH. lia.
Qed.

(** A block that closes [depth] open braces, by its first character. *)
Lemma closes_first_open depth block :
  closes_first depth (String "{" block) <-> 0 < depth /\ closes_first (depth + 1) block.
Proof.
  unfold closes_first. cbn [brace_depth]. cbn. split.
  - intros [Hsum Hpre].
    split; [pose proof (Hpre "" (String "{" block) eq_refl ltac:(done)) as H0;
            cbn in H0; lia|].
    split; [lia|]. intros p q -> Hq.
    specialize (Hpre (String "{" p) q eq_refl Hq). cbn in Hpre. lia.
  - intros (Hd & Hsum & Hpre). split; [lia|]. intros [|c p] q Hb Hq.
    + cbn. lia.
    + rewrite str_app_cons in Hb. injection Hb as <- ->.
      specialize (Hpre p q eq_refl Hq). cbn. lia.
Qed.

Lemma closes_first_other depth c block :
  Ascii.eqb c "{" = false -> Ascii.eqb c "}" = false ->
  closes_first depth (String c block) <-> 0 < depth /\ closes_first depth block.
Proof.
  intros H1 H2. unfold closes_first. cbn [brace_depth]. rewrite H1, H2. split.
  - intros [Hsum Hpre].
    split; [pose proof (Hpre "" (String c block) eq_refl ltac:(done)) as H0;
            cbn in H0; lia|].
    split; [lia|]. intros p q -> Hq.
    specialize (Hpre (String c p) q eq_refl Hq). cbn in Hpre.
    rewrite H1, H2 in Hpre. lia.
  - intros (Hd & Hsum & Hpre). split; [lia|]. intros [|c0 p] q Hb Hq.
    + cbn. lia.
    + rewrite str_app_cons in Hb. injection Hb as <- ->.
      specialize (Hpre p q eq_refl Hq). cbn. rewrite H1, H2. lia.
Qed.

Lemma closes_first_close depth block :
  closes_first depth (String "}" block) <->
  (depth = 1 /\ block = "") \/ (1 < depth /\ closes_first (depth - 1) block).
Proof.
  unfold closes_first. cbn [brace_depth]. cbn. split.
  - intros [Hsum Hpre].
    assert (0 < depth) as Hd.
    { pose proof (Hpre "" (String "}" block) eq_refl ltac:(done)) as H0.
      cbn in H0. lia. }
    destruct block as [|c block].
    + left. cbn in Hsum. split; [lia|done].
    + right.
      assert (1 < depth) as Hd1.
      { specialize (Hpre "}" (String c block) eq_refl ltac:(done)).
        cbn in Hpre. lia. }
      split; [done|]. split; [lia|]. intros p q Hb Hq.
      specialize (Hpre (String "}" p) q). rewrite str_app_cons, <- Hb in Hpre.
      specialize (Hpre eq_refl Hq). cbn in Hpre. lia.
  - intros [[-> ->] | (Hd & Hsum & Hpre)].
    + split; [done|]. intros [|c p] q Hb Hq; [cbn; lia|].
      rewrite str_app_cons in Hb. injection Hb as <- Hb.
      destruct p; [by destruct q|discriminate Hb].
    + split; [lia|]. intros [|c p] q Hb Hq.
      * cbn. lia.
      * rewrite str_app_cons in Hb. injection Hb as <- ->.
        specialize (Hpre p q eq_refl Hq). cbn. lia.
Qed.

(** The scan, from inside the text: with [taken] read since [start] and
    [depth] braces open, it returns [taken] extended by the block that
    closes them first, and nothing when no block does. *)
Lemma scan_braces_spec pre taken rest depth :
  0 < depth ->
  match scan_braces (pre +:+ (taken +:+ rest)) (String.length pre)
          (String.length pre + String.length taken) rest depth with
  | Some chunk =>
      exists block post,
        rest = block +:+ post /\ chunk = taken +:+ block /\ closes_first depth block
  | None => forall block post, rest = block +:+ post -> ~ closes_first depth block
  end.
Proof.
  revert taken depth. induction rest as [|c rest IH]; intros taken depth Hd.
  - cbn [scan_braces]. intros block post Hb [Hsum _].
    destruct block; [cbn in Hsum; lia|discriminate Hb].
  - cbn [scan_braces].
    assert (pre +:+ (taken +:+ String c rest)
            = pre +:+ ((taken +:+ String c "") +:+ rest)) as Htext
      by (by rewrite str_app_assoc, str_app_cons, str_app_nil_l).
    assert (S (String.length pre + String.length taken)
            = (String.length pre + String.length (taken +:+ String c ""))%nat) as Hi
      by (rewrite str_length_app; cbn; lia).
    rewrite Htext, Hi.
    assert (forall block post,
              String c rest = block +:+ post -> block <> "" ->
              exists block', block = String c block' /\ rest = block' +:+ post)
      as Hcut.
    { intros [|c0 block'] post Hb Hne; [done|].
      rewrite str_app_cons in Hb. injection Hb as <- ->. by eexists. }
    assert (forall block, closes_first depth block -> block <> "") as Hnonempty.
    { intros block [Hsum _] ->. cbn in Hsum. lia. }
    destruct (Ascii.eqb_spec c "{") as [->|Hopen].
    + specialize (IH (taken +:+ "{") (depth + 1) ltac:(lia)).
      destruct (scan_braces _ _ _ rest (depth + 1)) as [chunk|].
      * destruct IH as (block & post & -> & -> & Hblock).
        exists (String "{" block), post. split; [done|].
        split; [by rewrite str_app_assoc|].
        by apply closes_first_open.
      * intros block post Hb Hblock.
        destruct (Hcut block post Hb (Hnonempty _ Hblock)) as (block' & -> & Hrest).
        apply closes_first_open in Hblock as [_ Hblock]. by eapply IH.
    + destruct (Ascii.eqb_spec c "}") as [->|Hclose].
      * cbv zeta. destruct (Z.eqb_spec (depth - 1) 0) as [H0|H0].
        -- exists "}", rest. split; [done|]. split.
           ++ replace (String.length pre + String.length (taken +:+ "}")
                       - String.length pre)%nat
                with (String.length (taken +:+ "}")) by lia.
              apply substring_middle.
           ++ apply closes_first_close. left. split; [lia|done].
        -- specialize (IH (taken +:+ "}") (depth - 1) ltac:(lia)).
           destruct (scan_braces _ _ _ rest (depth - 1)) as [chunk|].
           ++ destruct IH as (block & post & -> & -> & Hblock).
              exists (String "}" block), post. split; [done|].
              split; [by rewrite str_app_assoc|].
              apply closes_first_close. right. split; [lia|done].
           ++ intros block post Hb Hblock.
              destruct (Hcut block post Hb (Hnonempty _ Hblock))
                as (block' & -> & Hrest).
              apply closes_first_close in Hblock as [[Hone _]|[_ Hblock]]; [lia|].
              by eapply IH.
      * apply Ascii.eqb_neq in Hopen, Hclose.
        specialize (IH (taken +:+ String c "") depth Hd).
        destruct (scan_braces _ _ _ rest depth) as [chunk|].
        -- destruct IH as (block & post & -> & -> & Hblock).
           exists (String c block), post. split; [done|].
           split; [by rewrite str_app_assoc|].
           by apply closes_first_other.
        -- intros block post Hb Hblock.
           destruct (Hcut block post Hb (Hnonempty _ Hblock)) as (block' & -> & Hrest).
           apply closes_first_other in Hblock as [_ Hblock]; [|done|done].
           by eapply IH.
Qed.

(** The scan of [_extract_json_object], started at the first opening brace. *)
Lemma scan_from_first_brace pre rest :
  match scan_braces (pre +:+ String "{" rest) (String.length pre)
          (String.length pre) (String "{" rest) 0 with
  | Some chunk =>
      exists block post,
        rest = block +:+ post /\ chunk = String "{" block /\ closes_first 1 block
  | None => forall block post, rest = block +:+ post -> ~ closes_first 1 block
  end.
Proof.
  pose proof (scan_braces_spec pre "{" rest 1 ltac:(lia)) as Hspec.
  cbn [scan_braces]. cbn [Ascii.eqb Bool.eqb].
  replace (0 + 1) with 1 by lia.
  replace (S (String.length pre)) with (String.length pre + String.length "{")%nat
    by (cbn; lia).
  exact Hspec.
Qed.

Lemma closes_first_nonempty depth block :
  0 < depth -> closes_first depth block -> block <> "".
Proof. intros Hd [Hsum _] ->. cbn in Hsum. lia. Qed.

(** A text has one first closing block only. *)
Lemma closes_first_unique depth b1 b2 p1 p2 :
  0 < depth ->
  closes_first depth b1 -> closes_first depth b2 ->
  b1 +:+ p1 = b2 +:+ p2 -> b1 = b2.
Proof.
  revert depth b2. induction b1 as [|c b1 IH]; intros depth b2 Hd H1 H2 Heq.
  { by destruct (closes_first_nonempty depth "" Hd H1). }
  destruct b2 as [|c2 b2]; [by destruct (closes_first_nonempty depth "" Hd H2)|].
  rewrite !str_app_cons in Heq. injection Heq as <- Heq. f_equal.
  destruct (Ascii.eqb_spec c "{") as [->|Hopen].
  - apply closes_first_open in H1 as [_ H1], H2 as [_ H2].
    apply (IH (depth + 1)); (done || lia).
  - destruct (Ascii.eqb_spec c "}") as [->|Hclose].
    + apply closes_first_close in H1, H2.
      destruct H1 as [[Hd1 Hb1]|[Hd1 H1]], H2 as [[Hd2 Hb2]|[Hd2 H2]]; try lia.
      * congruence.
      * apply (IH (depth - 1)); (done || lia).
    + apply Ascii.eqb_neq in Hopen, Hclose.
      apply closes_first_other in H1 as [_ H1], H2 as [_ H2]; try done.
      by apply (IH depth).
Qed.

Lemma prefix_brace_found (t : string) :
  String.prefix "{" t = true -> find_char "{" t = Some O.
Proof.
  destruct t as [|c t]; [done|]. intros Hp.
  apply String.prefix_correct in Hp. cbn in Hp. injection Hp as -> _.
  reflexivity.
Qed.

Section Extraction.
Context `{Runtime}.

(** X15: what [_extract_json_object] returns is never made up: a result
    other than [None] is what [json.loads] gives either for the whole
    stripped text, which then starts with an opening and ends with a
    closing brace, or for the part of it that runs from its first opening
    brace to the closing brace that first balances the braces. A text that
    is empty once stripped, or holds no opening brace, gives [None]. *)
Theorem extract_json_object_source text :
  let t := str_strip text in
  let v := _extract_json_object text in
  (t = "" -> v = PyNone) /\
  (find_char "{" t = None -> v = PyNone) /\
  (v <> PyNone ->
   (String.prefix "{" t = true /\ endswith_char "}" t = true /\
    json_loads t = Some v) \/
   (exists pre block post,
      t = pre +:+ String "{" (block +:+ post) /\
      find_char "{" pre = None /\
      closes_first 1 block /\
      json_loads (String "{" block) = Some v)).
Proof.
  cbv zeta. unfold _extract_json_object.
  set (t := str_strip text).
  split; [by intros ->|].
  destruct (String.eqb_spec t "") as [|Hne]; [done|].
  destruct (String.prefix "{" t && endswith_char "}" t) eqn:Efast.
  - apply andb_true_iff in Efast as [Hp He].
    destruct (json_loads t) as [v|] eqn:Ej.
    + split; [intros Hf; by rewrite (prefix_brace_found t Hp) in Hf|].
      intros _. by left.
    + rewrite (prefix_brace_found t Hp).
      split; [discriminate|]. intros Hv. right.
      destruct (find_char_split "{" t O (prefix_brace_found t Hp))
        as (pre & rest & Ht & Hlen & Hpre).
      destruct pre; [|discriminate Hlen]. rewrite str_app_nil_l in Ht.
      pose proof (scan_from_first_brace "" rest) as Hscan.
      rewrite str_app_nil_l in Hscan. cbn [String.length] in Hscan.
      rewrite Ht in Hv |- *. cbn [drop_chars] in Hv |- *.
      destruct (scan_braces _ _ _ _ _) as [chunk|]; [|done].
      destruct Hscan as (block & post & -> & -> & Hblock).
      exists "", block, post. rewrite str_app_nil_l.
      destruct (json_loads (String "{" block)); done.
  - split.
    + intros ->. done.
    + intros Hv. right.
      destruct (find_char "{" t) as [start|] eqn:Ef; [|done].
      destruct (find_char_split "{" t start Ef) as (pre & rest & Ht & Hlen & Hpre).
      pose proof (scan_from_first_brace pre rest) as Hscan.
      rewrite Ht, <- Hlen, drop_chars_app in Hv |- *.
      destruct (scan_braces _ _ _ _ _) as [chunk|]; [|done].
      destruct Hscan as (block & post & -> & -> & Hblock).
      exists pre, block, post.
      destruct (json_loads (String "{" block)); done.
Qed.

(** X16: an object embedded in other text is found. When the stripped text
    is some text without an opening brace, then a part from an opening
    brace to the closing brace that first balances the braces, then
    anything, and [json.loads] accepts that part but not the text as a
    whole, the result is what [json.loads] gives for that part. *)
Theorem extract_json_object_embedded text pre block post v :
  str_strip text = pre +:+ String "{" (block +:+ post) ->
  find_char "{" pre = None ->
  closes_first 1 block ->
  json_loads (String "{" block) = Some v ->
  json_loads (str_strip text) = None ->
  _extract_json_object text = v.
Proof.
  intros Ht Hpre Hblock Hv Hwhole. unfold _extract_json_object.
  rewrite Hwhole.
  assert (String.eqb (str_strip text) "" = false) as ->.
  { apply String.eqb_neq. rewrite Ht. by destruct pre. }
  assert ((if String.prefix "{" (str_strip text) && endswith_char "}" (str_strip text)
           then None else None) = (None : option pyvalue)) as ->
    by by destruct (_ && _).
  rewrite Ht, (find_char_first "{" pre _ Hpre), drop_chars_app.
  pose proof (scan_from_first_brace pre (block +:+ post)) as Hscan.
  destruct (scan_braces _ _ _ _ _) as [chunk|].
  - destruct Hscan as (block' & post' & Heq & -> & Hblock').
    assert (block' = block) as ->.
    { symmetry in Heq. by eapply (closes_first_unique 1). }
    by rewrite Hv.
  - by destruct (Hscan block post eq_refl).
Qed.

End Extraction.

Lemma extract_json_object_embedded_witness :
  _extract_json_object (H := sample_runtime) "ok {} done" = PyDict [].
Proof.
  apply (extract_json_object_embedded (H := sample_runtime)
           "ok {} done" "ok " "}" " done").
  - reflexivity.
  - reflexivity.
  - apply closes_first_close. left. split; reflexivity.
  - reflexivity.
  - reflexivity.
Defined.

(** ** The deck endpoint *)

Section DeckText.
Context `{Builtins}.

Lemma first_get_some v k raw :
  first_get v k = Some raw ->
  raw = PyNone \/
  exists item rest fields,
    v = PyList (PyDict (item :: fields) :: rest) /\
    raw = get_or_none k (item :: fields).
Proof.
  unfold first_get. destruct v as [| | | | |[|x rest]|]; try done.
  unfold py_or. destruct (truthy x) eqn:Tx.
  - destruct x as [| | | | | |fields]; try done.
    destruct fields as [|item fields]; [done|].
    cbn [body_get]. intros [= <-]. right. by exists item, rest, fields.
  - cbn. intros [= <-]. by left.
Qed.

Lemma py_or_truthy v default : truthy v = true -> py_or v default = v.
Proof. unfold py_or. by intros ->. Qed.

Lemma first_get_dict d rest k :
  d <> [] -> first_get (PyList (PyDict d :: rest)) k = Some (get_or_none k d).
Proof. by destruct d. Qed.

(** X17: [_extract_text_from_gemini] returns the text of the first part of
    the first candidate, and the empty string whenever the payload does
    not have that shape. A result other than the empty string means that
    the payload is a dict whose [candidates] is a list starting with a
    dict, whose [content] is a dict, whose [parts] is a list starting with
    a dict, whose [text] is a truthy value; the result is [str] of that
    value. *)
Theorem extract_text_shape payload :
  (forall top cand cands content part parts value,
     payload = PyDict top ->
     dict_get "candidates" top = Some (PyList (PyDict cand :: cands)) ->
     dict_get "content" cand = Some (PyDict content) ->
     dict_get "parts" content = Some (PyList (PyDict part :: parts)) ->
     dict_get "text" part = Some value ->
     truthy value = true ->
     _extract_text_from_gemini payload = py_str value) /\
  (_extract_text_from_gemini payload <> "" ->
   exists top cand cands content part parts value,
     payload = PyDict top /\
     dict_get "candidates" top = Some (PyList (PyDict cand :: cands)) /\
     dict_get "content" cand = Some (PyDict content) /\
     dict_get "parts" content = Some (PyList (PyDict part :: parts)) /\
     dict_get "text" part = Some value /\
     truthy value = true /\
     _extract_text_from_gemini payload = py_str value).
Proof.
  split.
  - intros top cand cands content part parts value -> Hc Hcontent Hparts Htext Hv.
    assert (cand <> []) as Hcand by (intros ->; discriminate Hcontent).
    assert (content <> []) as Hcont by (intros ->; discriminate Hparts).
    assert (part <> []) as Hpart by (intros ->; discriminate Htext).
    unfold _extract_text_from_gemini. cbn [body_get mbind option_bind].
    unfold get_or_none at 1. rewrite Hc, (py_or_truthy (PyList _)) by done.
    rewrite first_get_dict by done. cbn [mbind option_bind].
    unfold get_or_none at 1. rewrite Hcontent.
    rewrite (py_or_truthy (PyDict content)) by by destruct content.
    cbn [body_get mbind option_bind].
    unfold get_or_none at 1. rewrite Hparts, (py_or_truthy (PyList _)) by done.
    rewrite first_get_dict by done. cbn [mbind option_bind].
    unfold get_or_none. by rewrite Htext, py_or_truthy.
  - unfold _extract_text_from_gemini. intros Hne.
    destruct payload as [| | | | | |top]; try done.
    cbn [body_get mbind option_bind] in Hne |- *.
    destruct (first_get (py_or (get_or_none "candidates" top) (PyList [])) "content")
      as [raw1|] eqn:E1; cbn [mbind option_bind] in Hne |- *; [|done].
    apply first_get_some in E1 as [->|(f1 & cands & cfields & Hc & ->)];
      [cbn in Hne; done|].
    destruct (body_get (py_or (get_or_none "content" (f1 :: cfields)) (PyDict []))
                "parts") as [raw2|] eqn:E2; cbn [mbind option_bind] in Hne |- *;
      [|done].
    destruct (first_get (py_or raw2 (PyList [])) "text") as [raw3|] eqn:E3;
      cbn [mbind option_bind] in Hne |- *; [|done].
    apply first_get_some in E3 as [->|(f3 & parts & pfields & Hp & ->)];
      [cbn in Hne; done|].
    (* candidates *)
    unfold py_or in Hc.
    destruct (truthy (get_or_none "candidates" top)) eqn:Tc; [|discriminate Hc].
    unfold get_or_none in Hc at 1.
    destruct (dict_get "candidates" top) as [vc|] eqn:Dc; [|discriminate Hc].
    subst vc.
    (* content *)
    unfold py_or in E2 at 1.
    destruct (truthy (get_or_none "content" (f1 :: cfields))) eqn:Tn.
    2:{ cbn in E2. injection E2 as <-. cbn in Hp. discriminate Hp. }
    unfold get_or_none in E2 at 1, Tn.
    destruct (dict_get "content" (f1 :: cfields)) as [vn|] eqn:Dn;
      [|discriminate Tn].
    destruct vn as [| | | | | |content]; try discriminate E2.
    cbn [body_get] in E2. injection E2 as <-.
    (* parts *)
    unfold py_or in Hp.
    destruct (truthy (get_or_none "parts" content)) eqn:Tp; [|discriminate Hp].
    unfold get_or_none in Hp at 1.
    destruct (dict_get "parts" content) as [vp|] eqn:Dp; [|discriminate Hp].
    subst vp.
    (* text *)
    unfold py_or in Hne |- *.
    destruct (truthy (get_or_none "text" (f3 :: pfields))) eqn:Tt.
    2:{ cbn in Hne. done. }
    unfold get_or_none in Tt, Hne |- *.
    destruct (dict_get "text" (f3 :: pfields)) as [value|] eqn:Dt;
      [|discriminate Tt].
    by exists top, (f1 :: cfields), cands, content, (f3 :: pfields), parts, value.
Qed.

End DeckText.

Section DeckEndpoint.
Context `{Runtime} `{Builtins}.

(** X18: a deck request gets past lines 321 to 330 only with a source text
    that is not empty once stripped and holds at most 200000 characters,
    and with a number of cards between 10 and 200: whatever [totalCards]
    holds is clamped, and a [totalCards] that is absent or falsy (null, 0,
    an empty string) stands for 60. *)
Theorem prepare_deck_bounds body total requirements source_text :
  prepare_deck body = DeckPrompt total requirements source_text ->
  10 <= total <= 200 /\
  source_text <> "" /\
  str_len source_text <= 200000 /\
  exists fields,
    body = PyDict fields /\
    or_empty_strip (get_or_none "sourceText" fields) = Some source_text /\
    or_empty_strip (get_or_none "requirements" fields) = Some requirements /\
    (truthy (get_or_none "totalCards" fields) = false -> total = 60).
Proof.
  unfold prepare_deck. destruct body as [| | | | | |fields]; try done.
  cbn [body_get mbind option_bind].
  destruct (or_empty_strip (get_or_none "requirements" fields)) as [req|] eqn:Er;
    [|done].
  destruct (or_empty_strip (get_or_none "sourceText" fields)) as [src|] eqn:Es;
    [|done].
  destruct (py_int (py_or (get_or_none "totalCards" fields) (PyInt 60)))
    as [n|] eqn:En; [|done].
  destruct (String.eqb_spec src "") as [|Hsrc]; [done|].
  destruct (Z.ltb_spec 200000 (str_len src)) as [|Hlen]; [done|].
  intros [= <- <- <-]. split; [lia|]. split; [done|]. split; [done|].
  exists fields. split; [done|]. split; [done|]. split; [done|].
  intros Hfalsy. unfold py_or in En. rewrite Hfalsy in En. cbn in En.
  injection En as <-. lia.
Qed.


End DeckEndpoint.

Section Rejections.
Context `{Runtime} `{Builtins}.



End Rejections.

(** ** Worked examples of the endpoints *)

Lemma prepare_deck_bounds_witness :
  10 <= 200 <= 200 /\
  "ser, ir" <> "" /\
  str_len (Builtins := sample_builtins) "ser, ir" <= 200000 /\
  exists fields,
    deck_body = PyDict fields /\
    or_empty_strip (H := sample_runtime) (get_or_none "sourceText" fields)
      = Some "ser, ir" /\
    or_empty_strip (H := sample_runtime) (get_or_none "requirements" fields)
      = Some "" /\
    (truthy (get_or_none "totalCards" fields) = false -> 200 = 60).
Proof.
  apply (@prepare_deck_bounds sample_runtime sample_builtins deck_body 200 "" "ser, ir").
  reflexivity.
Defined.



